(* ===================================================================== *)
(*  Diagnostic scoring engine: severity classification, cluster scores,  *)
(*  labels and symptom records.                                          *)
(*                                                                       *)
(*  Shallow embedding of                                                 *)
(*    20250928/analysis/symptom_engine.py   (classify_severity, WEIGHT,  *)
(*                                           cluster_scores)             *)
(*    20250928/analysis/diagnose_runs.py    (the per-run loop that       *)
(*                                           builds the output rows)     *)
(*                                                                       *)
(*  Python floats are IEEE 754 binary64 numbers: they are the kernel's   *)
(*  primitive floats, `abs` is PrimFloat.abs and `a >= b` is             *)
(*  PrimFloat.leb b a (false as soon as one side is NaN).  Python ints   *)
(*  are Z.  A dict with string keys is a gmap when only lookups matter   *)
(*  and an association list when the insertion order is observable.      *)
(* ===================================================================== *)

From Stdlib Require Import ZArith PrimFloat SpecFloat FloatOps FloatAxioms.
From stdpp Require Import gmap strings list fin_maps.

Local Open Scope Z_scope.

(* --------------------------------------------------------------------- *)
(* Floats                                                                *)
(* --------------------------------------------------------------------- *)

(** Python's [a >= b] on floats. *)
Definition fge (a b : float) : bool := PrimFloat.leb b a.

(** Python's [a > b] on floats. *)
Definition fgt (a b : float) : bool := PrimFloat.ltb b a.

(** Python's [a <= b] on floats. *)
Definition fle (a b : float) : bool := PrimFloat.leb a b.

Definition fzero : float := PrimFloat.zero.

(* --------------------------------------------------------------------- *)
(* symptom_engine.py                                                     *)
(* --------------------------------------------------------------------- *)

(** Severity = str  # 'normal'|'mild'|'moderate'|'severe' *)
Inductive Severity : Type := normal | mild | moderate | severe.

Definition severity_str (s : Severity) : string :=
  match s with
  | normal => "normal"
  | mild => "mild"
  | moderate => "moderate"
  | severe => "severe"
  end.

(** The order of the glossary: normal < mild < moderate < severe. *)
Definition severity_rank (s : Severity) : Z :=
  match s with
  | normal => 0
  | mild => 1
  | moderate => 2
  | severe => 3
  end.

Definition severity_le (s1 s2 : Severity) : Prop :=
  severity_rank s1 <= severity_rank s2.

(** @dataclass class Thresholds: severe, moderate, mild (in this order). *)
Record Thresholds : Type := mkThresholds {
  thr_severe : float;
  thr_moderate : float;
  thr_mild : float
}.

(** def classify_severity(z, thr) *)
Definition classify_severity (z : float) (thr : Thresholds) : Severity :=
  let a := PrimFloat.abs z in
  if fge a (thr_severe thr) then severe
  else if fge a (thr_moderate thr) then moderate
  else if fge a (thr_mild thr) then mild
  else normal.

(** The classifier as the specification words it: the first bound met, in
    the order severe, moderate, mild, decides; none met gives normal. *)
Inductive severity_spec (v : float) (thr : Thresholds) : Severity → Prop :=
  | severity_spec_severe :
      fge (PrimFloat.abs v) (thr_severe thr) = true →
      severity_spec v thr severe
  | severity_spec_moderate :
      fge (PrimFloat.abs v) (thr_severe thr) = false →
      fge (PrimFloat.abs v) (thr_moderate thr) = true →
      severity_spec v thr moderate
  | severity_spec_mild :
      fge (PrimFloat.abs v) (thr_severe thr) = false →
      fge (PrimFloat.abs v) (thr_moderate thr) = false →
      fge (PrimFloat.abs v) (thr_mild thr) = true →
      severity_spec v thr mild
  | severity_spec_normal :
      fge (PrimFloat.abs v) (thr_severe thr) = false →
      fge (PrimFloat.abs v) (thr_moderate thr) = false →
      fge (PrimFloat.abs v) (thr_mild thr) = false →
      severity_spec v thr normal.

(** WEIGHT = {'severe': 3, 'moderate': 2, 'mild': 1, 'normal': 0} *)
Definition WEIGHT (s : Severity) : Z :=
  match s with
  | severe => 3
  | moderate => 2
  | mild => 1
  | normal => 0
  end.

(* --------------------------------------------------------------------- *)
(* Python values, dicts and exceptions                                   *)
(* --------------------------------------------------------------------- *)

(** The exceptions the modelled code can raise. *)
Inductive exn : Type := KeyError (key : string).

Inductive result (A : Type) : Type :=
  | Ok (a : A)
  | Raise (e : exn).
Arguments Ok {A} a.
Arguments Raise {A} e.

#[global] Instance result_ret : MRet result := @Ok.

#[global] Instance result_bind : MBind result := fun A B k r =>
  match r with
  | Ok a => k a
  | Raise e => Raise e
  end.

(** A loop whose body may raise: the first exception ends the loop. *)
Fixpoint foldM {A S : Type} (body : S → A → result S) (st : S) (l : list A)
  : result S :=
  match l with
  | [] => Ok st
  | x :: l' => st' ← body st x; foldM body st' l'
  end.

Fixpoint mapM {A B : Type} (f : A → result B) (l : list A) : result (list B) :=
  match l with
  | [] => Ok []
  | x :: l' => y ← f x; ys ← mapM f l'; Ok (y :: ys)
  end.

(** [d[k]] *)
Definition getitem {V : Type} (d : gmap string V) (k : string) : result V :=
  match d !! k with
  | Some v => Ok v
  | None => Raise (KeyError k)
  end.

(** [d.get(k, dflt)], with [dflt] already evaluated. *)
Definition dict_get {V : Type} (d : gmap string V) (k : string) (dflt : V) : V :=
  match d !! k with
  | Some v => v
  | None => dflt
  end.

(** The values stored in the dicts the engine builds. *)
Inductive pyval : Type :=
  | PyNone
  | PyFloat (f : float)
  | PyStr (s : string).

(** A dict written as a literal, in insertion order. *)
Definition pydict : Type := list (string * pyval).

Fixpoint pydict_getitem (d : pydict) (k : string) : result pyval :=
  match d with
  | [] => Raise (KeyError k)
  | (k', v) :: d' => if String.eqb k' k then Ok v else pydict_getitem d' k
  end.

(** The keys of a dict, which are the columns it gives to a table. *)
Definition pydict_keys (d : pydict) : list string := d.*1.

(** A run's row: each key holds a float or None. *)
Abbreviation RunRow := (gmap string (option float)).

Definition pyval_of (v : option float) : pyval :=
  match v with
  | Some f => PyFloat f
  | None => PyNone
  end.

(** One entry of [cluster_map['clusters']]: a dict in which the keys
    'metrics' and 'indicators' may each be absent. *)
Record ClusterDef : Type := mkClusterDef {
  c_metrics : option (list string);
  c_indicators : option (list string)
}.

(** [c.get('metrics', [])] *)
Definition get_metrics (c : ClusterDef) : list string := default [] (c_metrics c).

(** [c.get('indicators', [])] *)
Definition get_indicators (c : ClusterDef) : list string :=
  default [] (c_indicators c).

(** [cluster_map]: its 'clusters' entry, a dict from cluster name to
    definition, in insertion order (a dict: the names are distinct). *)
Record ClusterMap : Type := mkClusterMap {
  clusters : list (string * ClusterDef)
}.

(* --------------------------------------------------------------------- *)
(* symptom_engine.py: cluster_scores                                     *)
(* --------------------------------------------------------------------- *)

Inductive Label : Type := label_none | label_weak | label_moderate | label_strong.

Definition label_str (l : Label) : string :=
  match l with
  | label_none => "none"
  | label_weak => "weak"
  | label_moderate => "moderate"
  | label_strong => "strong"
  end.

(** The if/elif chain of the label loop (lines 75-82). *)
Definition score_label (s : Z) : Label :=
  if 6 <=? s then label_strong
  else if 3 <=? s then label_moderate
  else if 1 <=? s then label_weak
  else label_none.

(** [{'metric': key, 'z': z, 'severity': sev, 'cluster': cname}] *)
Definition symptom_record (key : string) (z : float) (sev : Severity)
    (cname : string) : pydict :=
  [("metric", PyStr key); ("z", PyFloat z);
   ("severity", PyStr (severity_str sev)); ("cluster", PyStr cname)].

(** The locals [scores] and [records] that the loops update. *)
Record engine_state : Type := mkState {
  st_scores : gmap string Z;
  st_records : list pydict
}.

(** Lines 59-62 and, word for word with [ind] for [m], lines 68-71:
      thr = thr_map.get(key, thr_map['global'])
      sev = classify_severity(z, thr)
      scores[cname] += WEIGHT[sev]
      records.append({...})
    The argument [thr_map['global']] is evaluated before [get] is called. *)
Definition record_symptom (thr_map : gmap string Thresholds) (cname key : string)
    (z : float) (st : engine_state) : result engine_state :=
  g ← getitem thr_map "global";
  let thr := dict_get thr_map key g in
  let sev := classify_severity z thr in
  s ← getitem (st_scores st) cname;
  Ok {| st_scores := <[cname := s + WEIGHT sev]> (st_scores st);
        st_records := st_records st ++ [symptom_record key z sev cname] |}.

(** [run_row.get(f'z_{m}', run_row.get(f'{m}_z_local'))] *)
Definition metric_lookup (run_row : RunRow) (m : string) : option float :=
  dict_get run_row ("z_" +:+ m) (dict_get run_row (m +:+ "_z_local") None).

(** [run_row.get(ind)] *)
Definition indicator_lookup (run_row : RunRow) (ind : string) : option float :=
  dict_get run_row ind None.

(** Body of [for m in c.get('metrics', [])]. *)
Definition metric_step (run_row : RunRow) (thr_map : gmap string Thresholds)
    (cname : string) (st : engine_state) (m : string) : result engine_state :=
  match metric_lookup run_row m with
  | None => Ok st
  | Some z => record_symptom thr_map cname m z st
  end.

(** Body of [for ind in c.get('indicators', [])]. *)
Definition indicator_step (run_row : RunRow) (thr_map : gmap string Thresholds)
    (cname : string) (st : engine_state) (ind : string) : result engine_state :=
  match indicator_lookup run_row ind with
  | None => Ok st
  | Some z => record_symptom thr_map cname ind z st
  end.

(** Body of [for cname, c in cluster_map['clusters'].items()]. *)
Definition cluster_step (run_row : RunRow) (thr_map : gmap string Thresholds)
    (st : engine_state) (entry : string * ClusterDef) : result engine_state :=
  let cname := entry.1 in
  let c := entry.2 in
  st1 ← foldM (metric_step run_row thr_map cname) st (get_metrics c);
  foldM (indicator_step run_row thr_map cname) st1 (get_indicators c).

(** [for cname in cluster_map['clusters']: scores[cname] = 0] *)
Definition init_scores (cs : list (string * ClusterDef)) : gmap string Z :=
  foldl (fun scores entry => <[entry.1 := 0]> scores) ∅ cs.

(** def cluster_scores(run_row, cluster_map, thr_map) *)
Definition cluster_scores (run_row : RunRow) (cluster_map : ClusterMap)
    (thr_map : gmap string Thresholds)
  : result (gmap string Z * gmap string Label * list pydict) :=
  let st0 := {| st_scores := init_scores (clusters cluster_map);
                st_records := [] |} in
  st ← foldM (cluster_step run_row thr_map) st0 (clusters cluster_map);
  let labels := score_label <$> st_scores st in
  Ok (st_scores st, labels, st_records st).

(* --------------------------------------------------------------------- *)
(* diagnose_runs.py: the symptom rows of the per-run loop                *)
(* --------------------------------------------------------------------- *)

(** The dict appended to [symptom_rows] for a record [r] of a run:
      {'run': row['run'], 'metric': r['metric'], 'z': r['z'],
       'severity': r['severity'], 'clusters': r['cluster']} *)
Definition symptom_row (row : RunRow) (r : pydict) : result pydict :=
  run ← getitem row "run";
  metric ← pydict_getitem r "metric";
  z ← pydict_getitem r "z";
  sev ← pydict_getitem r "severity";
  cl ← pydict_getitem r "cluster";
  Ok [("run", pyval_of run); ("metric", metric); ("z", z);
      ("severity", sev); ("clusters", cl)].

(** [for _, row in wide.iterrows(): ...], keeping [symptom_rows]. *)
Definition symptom_rows_of_run (cluster_map : ClusterMap)
    (thr_map : gmap string Thresholds) (symptom_rows : list pydict)
    (row : RunRow) : result (list pydict) :=
  res ← cluster_scores row cluster_map thr_map;
  new_rows ← mapM (symptom_row row) res.2;
  Ok (symptom_rows ++ new_rows).

(** The list handed to [pd.DataFrame(symptom_rows)]: its keys are the
    columns of the symptom table. *)
Definition diagnose_symptom_rows (wide : list RunRow) (cluster_map : ClusterMap)
    (thr_map : gmap string Thresholds) : result (list pydict) :=
  foldM (symptom_rows_of_run cluster_map thr_map) [] wide.

(* --------------------------------------------------------------------- *)
(* diagnose_runs.py: the threshold map and the cause rows                *)
(* --------------------------------------------------------------------- *)

(** [d.get(k)] on a dict kept in insertion order, None when [k] is not a
    key. *)
Fixpoint alist_lookup {V : Type} (k : string) (d : list (string * V)) : option V :=
  match d with
  | [] => None
  | (k', v) :: d' => if decide (k' = k) then Some v else alist_lookup k d'
  end.

(** [d[k] = v] on a dict kept in insertion order: an existing key keeps
    its place, a new key goes last. *)
Fixpoint alist_set {V : Type} (k : string) (v : V) (d : list (string * V))
  : list (string * V) :=
  match d with
  | [] => [(k, v)]
  | (k', v') :: d' =>
      if decide (k' = k) then (k', v) :: d' else (k', v') :: alist_set k v d'
  end.

(** What building the threshold map can raise. *)
Inductive config_error : Type :=
  | ConfigKeyError (key : string)
  | ConfigTypeError.

(** The dataclass [Thresholds] called with the items of an entry [v] of the
    thresholds file as keyword arguments: it takes exactly the keywords
    severe, moderate and mild, and the call raises TypeError (None here)
    when one is missing or another one is given. *)
Definition thresholds_of_cfg (v : gmap string float) : option Thresholds :=
  match v !! "severe", v !! "moderate", v !! "mild" with
  | Some s, Some m, Some l =>
      if decide (size v = 3%nat) then Some (mkThresholds s m l) else None
  | _, _, _ => None
  end.

(** for k, v in thr_cfg.items():
        if k == 'global': continue
        thr_map[k] = Thresholds called on the items of v *)
Fixpoint add_thresholds (thr_cfg : list (string * gmap string float))
    (thr_map : gmap string Thresholds) : config_error + gmap string Thresholds :=
  match thr_cfg with
  | [] => inr thr_map
  | (k, v) :: rest =>
      if decide (k = "global") then add_thresholds rest thr_map
      else match thresholds_of_cfg v with
           | None => inl ConfigTypeError
           | Some t => add_thresholds rest (<[k := t]> thr_map)
           end
  end.

(** thr_map = {'global': Thresholds called on the items of
    thr_cfg['global']}, then the loop over the other entries; [thr_cfg] is
    the dict loaded from the thresholds file, in file order. *)
Definition build_thr_map (thr_cfg : list (string * gmap string float))
  : config_error + gmap string Thresholds :=
  match alist_lookup "global" thr_cfg with
  | None => inl (ConfigKeyError "global")
  | Some v =>
      match thresholds_of_cfg v with
      | None => inl ConfigTypeError
      | Some g => add_thresholds thr_cfg {["global" := g]}
      end
  end.

(** The values of a cause row: the run id, a score, a label. *)
Inductive cell : Type :=
  | CellNone
  | CellFloat (f : float)
  | CellInt (n : Z)
  | CellStr (s : string).

Definition cell_of (v : option float) : cell :=
  match v with
  | Some f => CellFloat f
  | None => CellNone
  end.

(** Body of [for cname, s in scores.items()]:
      cause_row[cname] = s
      cause_row[f'label_{cname}'] = labels[cname] *)
Definition cause_step (scores : gmap string Z) (labels : gmap string Label)
    (cause_row : list (string * cell)) (cname : string)
  : result (list (string * cell)) :=
  s ← getitem scores cname;
  l ← getitem labels cname;
  Ok (alist_set ("label_" +:+ cname) (CellStr (label_str l))
        (alist_set cname (CellInt s) cause_row)).

(** cause_row = {'run': row['run']} followed by the loop over
    [scores.items()].  A dict is iterated in insertion order; [scores] is
    kept here as a gmap, which has no such order, so the keys are taken
    from the cluster map, in whose order cluster_scores inserted them. *)
Definition cause_row_of (row : RunRow) (cluster_map : ClusterMap)
    (scores : gmap string Z) (labels : gmap string Label)
  : result (list (string * cell)) :=
  run ← getitem row "run";
  foldM (cause_step scores labels) [("run", cell_of run)]
        (clusters cluster_map).*1.

(** Body of [for _, row in wide.iterrows()], on both tables. *)
Definition diagnose_run_step (cluster_map : ClusterMap)
    (thr_map : gmap string Thresholds)
    (tables : list pydict * list (list (string * cell))) (row : RunRow)
  : result (list pydict * list (list (string * cell))) :=
  res ← cluster_scores row cluster_map thr_map;
  new_rows ← mapM (symptom_row row) res.2;
  cause_row ← cause_row_of row cluster_map res.1.1 res.1.2;
  Ok (tables.1 ++ new_rows, tables.2 ++ [cause_row]).

(** The lists handed to the two [pd.DataFrame(...).to_csv] calls. *)
Definition diagnose_tables (wide : list RunRow) (cluster_map : ClusterMap)
    (thr_map : gmap string Thresholds)
  : result (list pydict * list (list (string * cell))) :=
  foldM (diagnose_run_step cluster_map thr_map) ([], []) wide.

(* --------------------------------------------------------------------- *)
(* The two check_outputs.py scripts                                      *)
(* --------------------------------------------------------------------- *)

Definition REQUIRED_COLS : list string :=
  ["run"; "segment"; "file"; "value"; "error"; "weight"].

(** What [pd.read_csv(p)] gives: an exception, or a frame, of which the
    scripts look at the columns and at whether it is empty. *)
Inductive csv_read : Type :=
  | ReadError
  | Frame (columns : list string) (nrows : nat).

(** [df.empty]: no rows or no columns. *)
Definition frame_empty (columns : list string) (nrows : nat) : bool :=
  match columns, nrows with
  | [], _ => true
  | _, O => true
  | _, _ => false
  end.

(** [[c for c in REQUIRED_COLS if c not in df.columns]] *)
Definition missing_cols (columns : list string) : list string :=
  filter (fun c => c ∉ columns) REQUIRED_COLS.

(** The lines the scripts print, by kind. *)
Inductive message : Type :=
  | NoCsvFound
  | FailRead (p : string)
  | FailMissing (p : string) (missing : list string)
  | WarnEmpty (p : string)
  | FailEmpty (p : string)
  | Done
  | FailedWith (issues : nat).

(** print("DONE" if bad == 0 else f"FAILED with {bad} issues")
    sys.exit(0 if bad == 0 else 1) *)
Definition finish (issues : nat) (out : list message) : list message * Z :=
  match issues with
  | O => (out ++ [Done], 0)
  | S _ => (out ++ [FailedWith issues], 1)
  end.

(** 20250928/scripts/check_outputs.py: body of [for p in csvs[:12]]. *)
Definition check_step (st : nat * list message) (file : string * csv_read)
  : nat * list message :=
  match file.2 with
  | ReadError => (S st.1, st.2 ++ [FailRead file.1])
  | Frame columns nrows =>
      match missing_cols columns with
      | _ :: _ => (S st.1, st.2 ++ [FailMissing file.1 (missing_cols columns)])
      | [] => if frame_empty columns nrows
              then (st.1, st.2 ++ [WarnEmpty file.1])
              else st
      end
  end.

(** 20250928/scripts/check_outputs.py, given the sorted paths that the
    glob found, each with what reading it gives: the lines printed and the
    exit code. *)
Definition check_outputs (csvs : list (string * csv_read)) : list message * Z :=
  match csvs with
  | [] => ([NoCsvFound], 2)
  | _ :: _ =>
      let st := foldl check_step (O, []) (take 12 csvs) in
      finish st.1 st.2
  end.

(** scripts/check_outputs.py: body of [for p in csvs[:8]]; the read is
    not guarded, so its exception ends the script (None). *)
Definition main_step (st : nat * list message) (file : string * csv_read)
  : option (nat * list message) :=
  match file.2 with
  | ReadError => None
  | Frame columns nrows =>
      let st1 := match missing_cols columns with
                 | _ :: _ => (S st.1, st.2 ++ [FailMissing file.1 (missing_cols columns)])
                 | [] => st
                 end in
      Some (if frame_empty columns nrows
            then (S st1.1, st1.2 ++ [FailEmpty file.1])
            else st1)
  end.

Fixpoint main_loop (st : nat * list message) (files : list (string * csv_read))
  : option (nat * list message) :=
  match files with
  | [] => Some st
  | file :: rest =>
      match main_step st file with
      | Some st' => main_loop st' rest
      | None => None
      end
  end.

(** scripts/check_outputs.py: def main(). *)
Definition main (csvs : list (string * csv_read)) : option (list message * Z) :=
  match csvs with
  | [] => Some ([NoCsvFound], 2)
  | _ :: _ =>
      match main_loop (O, []) (take 8 csvs) with
      | Some st => Some (finish st.1 st.2)
      | None => None
      end
  end.

(** A file that reads and has every required column. *)
Definition has_required_cols (file : string * csv_read) : Prop :=
  ∃ columns nrows, file.2 = Frame columns nrows
                   ∧ ∀ c, c ∈ REQUIRED_COLS → c ∈ columns.

(** A file that reads, has every required column and has a row. *)
Definition has_required_cols_and_rows (file : string * csv_read) : Prop :=
  ∃ columns nrows, file.2 = Frame columns (S nrows)
                   ∧ ∀ c, c ∈ REQUIRED_COLS → c ∈ columns.

(* --------------------------------------------------------------------- *)
(* The vocabulary of the specification                                   *)
(* --------------------------------------------------------------------- *)

(** Threshold resolution as the specification words it: the entry of the
    key if present, else the "global" entry. *)
Definition resolve (key : string) (thr_map : gmap string Thresholds)
  : option Thresholds :=
  match thr_map !! key with
  | Some t => Some t
  | None => thr_map !! "global"
  end.

(** Value resolution of a metric as the specification words it: the
    candidate keys in priority order, the first present key wins. *)
Definition metric_value (run_row : RunRow) (m : string) : option float :=
  match run_row !! ("z_" +:+ m) with
  | Some v => v
  | None =>
      match run_row !! (m +:+ "_z_local") with
      | Some v => v
      | None => None
      end
  end.

(** Value resolution of an indicator: by its name. *)
Definition indicator_value (run_row : RunRow) (ind : string) : option float :=
  match run_row !! ind with
  | Some v => v
  | None => None
  end.

(** The configured keys of a cluster that resolve in a run, each with its
    value: metrics first, then indicators, in configuration order. *)
Definition resolved_values (run_row : RunRow) (c : ClusterDef)
  : list (string * float) :=
  omap (fun m => pair m <$> metric_value run_row m) (get_metrics c)
  ++ omap (fun i => pair i <$> indicator_value run_row i) (get_indicators c).

(** The severity of a resolved value under the thresholds resolved for its
    configured key, [g] being the "global" entry. *)
Definition symptom_severity (thr_map : gmap string Thresholds) (g : Thresholds)
    (kz : string * float) : Severity :=
  classify_severity kz.2 (default g (thr_map !! kz.1)).

Definition Zsum (l : list Z) : Z := foldr Z.add 0 l.

(** Sum of WEIGHT[severity] over the resolved values of a cluster. *)
Definition cluster_total (run_row : RunRow) (thr_map : gmap string Thresholds)
    (g : Thresholds) (c : ClusterDef) : Z :=
  Zsum ((fun kz => WEIGHT (symptom_severity thr_map g kz))
          <$> resolved_values run_row c).

(** The records of a cluster: one per resolved value. *)
Definition cluster_records (run_row : RunRow) (thr_map : gmap string Thresholds)
    (g : Thresholds) (entry : string * ClusterDef) : list pydict :=
  (fun kz => symptom_record kz.1 kz.2 (symptom_severity thr_map g kz) entry.1)
    <$> resolved_values run_row entry.2.

(** A cluster map from which the metric [m] is dropped in every cluster. *)
Definition without_metric (m : string) (cluster_map : ClusterMap) : ClusterMap :=
  {| clusters :=
       (fun entry =>
          (entry.1,
           {| c_metrics := filter (fun x => x ≠ m) <$> c_metrics entry.2;
              c_indicators := c_indicators entry.2 |}))
         <$> clusters cluster_map |}.

(** The resolved values of a run over all clusters, each with the name of
    its cluster, in processing order. *)
Definition all_resolved (run_row : RunRow) (cs : list (string * ClusterDef))
  : list (string * (string * float)) :=
  concat ((fun entry => pair entry.1 <$> resolved_values run_row entry.2) <$> cs).

(** The reading of threshold resolution that keys it by the row's key: a
    value found under "z_" + m is classified under the thresholds resolved
    for "z_" + m. *)
Definition thresholds_resolved_by_row_key : Prop :=
  ∀ (run_row : RunRow) (cluster_map : ClusterMap)
    (thr_map : gmap string Thresholds) scores labels records
    (cname : string) (c : ClusterDef) (m : string) (z : float) (thr : Thresholds),
    cluster_scores run_row cluster_map thr_map = Ok (scores, labels, records) →
    (cname, c) ∈ clusters cluster_map →
    m ∈ get_metrics c →
    run_row !! ("z_" +:+ m) = Some (Some z) →
    resolve ("z_" +:+ m) thr_map = Some thr →
    symptom_record m z (classify_severity z thr) cname ∈ records.

(** The symptom row of a run for a resolved value of a cluster. *)
Definition expected_symptom_row (run : option float) (thr_map : gmap string Thresholds)
    (g : Thresholds) (ckz : string * (string * float)) : pydict :=
  [("run", pyval_of run); ("metric", PyStr ckz.2.1); ("z", PyFloat ckz.2.2);
   ("severity", PyStr (severity_str (symptom_severity thr_map g ckz.2)));
   ("clusters", PyStr ckz.1)].

(** [row['run']] when the key is there. *)
Definition row_run (row : RunRow) : option float := default None (row !! "run").

(** The columns that the clusters give to a cause row, in order: for each
    cluster its name and "label_" + name. *)
Definition cause_columns (names : list string) : list string :=
  concat ((fun n => [n; "label_" +:+ n]) <$> names).

(** The cause row of a run when the column names do not collide: the run
    id, then for each cluster its score and its label. *)
Definition expected_cause_row (row : RunRow) (thr_map : gmap string Thresholds)
    (g : Thresholds) (cs : list (string * ClusterDef)) : list (string * cell) :=
  ("run", cell_of (row_run row))
  :: concat ((fun entry =>
                [(entry.1, CellInt (cluster_total row thr_map g entry.2));
                 ("label_" +:+ entry.1,
                  CellStr (label_str (score_label
                                        (cluster_total row thr_map g entry.2))))])
               <$> cs).

(** WEIGHT as the dict it is, keyed by the severity strings; a string
    that is no key weighs nothing here. *)
Definition weight_of_str (sev : string) : Z :=
  if decide (sev = "severe") then 3
  else if decide (sev = "moderate") then 2
  else if decide (sev = "mild") then 1
  else 0.

(** What a record read back from the records list adds to the score of
    the cluster [cname]: the weight of its 'severity' when its 'cluster'
    is [cname]. *)
Definition record_weight (cname : string) (r : pydict) : Z :=
  match pydict_getitem r "cluster", pydict_getitem r "severity" with
  | Ok (PyStr c), Ok (PyStr sev) => if decide (c = cname) then weight_of_str sev else 0
  | _, _ => 0
  end.

(** The keys of a run's row that cluster_scores reads under a cluster
    map: for each metric m its two candidate keys, and each indicator. *)
Definition consulted_keys (cluster_map : ClusterMap) : list string :=
  concat ((fun entry =>
             concat ((fun m => ["z_" +:+ m; m +:+ "_z_local"]) <$> get_metrics entry.2)
             ++ get_indicators entry.2)
            <$> clusters cluster_map).

(* --------------------------------------------------------------------- *)
(* Concrete configurations and runs                                      *)
(* --------------------------------------------------------------------- *)

(** global: {mild: 1, moderate: 2, severe: 3} *)
Definition thr_123 : Thresholds := mkThresholds 3 2 1.

Definition thr_map_global : gmap string Thresholds := {["global" := thr_123]}.

(** A threshold map with an entry under the row key "z_A". *)
Definition thr_map_row_key : gmap string Thresholds :=
  <["z_A" := mkThresholds 30 20 10]> thr_map_global.

(** A threshold map with an entry for metric A and no "global" entry. *)
Definition thr_map_no_global : gmap string Thresholds := {["A" := thr_123]}.

(** A threshold record whose mild bound is positive but whose severe bound
    is not. *)
Definition thr_severe_nonpositive : Thresholds := mkThresholds 0 2 1.

(** clusters: {C: {metrics: [A, B]}} *)
Definition cluster_map_C : ClusterMap :=
  {| clusters := [("C", {| c_metrics := Some ["A"; "B"]; c_indicators := None |})] |}.

(** clusters: {C: {metrics: [A, B]}, D: {metrics: [E], indicators: [q]}} *)
Definition cluster_map_CD : ClusterMap :=
  {| clusters :=
       [("C", {| c_metrics := Some ["A"; "B"]; c_indicators := None |});
        ("D", {| c_metrics := Some ["E"]; c_indicators := Some ["q"] |})] |}.

(** {z_A: 2.5, z_B: 3.5} *)
Definition run_row_AB : RunRow :=
  <["z_A" := Some 2.5%float]> (<["z_B" := Some 3.5%float]> ∅).

(** {run: 7.0, z_A: 2.5, z_B: 3.5} *)
Definition run_row_7 : RunRow := <["run" := Some 7%float]> run_row_AB.

(** {z_A: 2.5, B_z_local: 0.5} *)
Definition run_row_local : RunRow :=
  <["z_A" := Some 2.5%float]> (<["B_z_local" := Some 0.5%float]> ∅).

(** {z_B: None, B_z_local: 0.5}: the first candidate key of B is present
    and holds None. *)
Definition run_row_none : RunRow :=
  <["z_B" := None]> (<["B_z_local" := Some 0.5%float]> ∅).

(** {run: 7.0, z_A: 2.5, z_B: 3.5, note: 9.0}: [run_row_7] with a column
    no cluster refers to. *)
Definition run_row_7_note : RunRow := <["note" := Some 9%float]> run_row_7.

(** clusters: {D: {metrics: [E], indicators: [q]}} *)
Definition cluster_map_D : ClusterMap :=
  {| clusters := [("D", {| c_metrics := Some ["E"]; c_indicators := Some ["q"] |})] |}.

(** global: {mild: 1, moderate: 2, severe: 3}
    A: {mild: 10, moderate: 20, severe: 30} *)
Definition thr_cfg_global_A : list (string * gmap string float) :=
  [("global", <["mild" := 1%float]> (<["moderate" := 2%float]>
                (<["severe" := 3%float]> ∅)));
   ("A", <["mild" := 10%float]> (<["moderate" := 20%float]>
           (<["severe" := 30%float]> ∅)))].

(** clusters: {run: {metrics: [A]}, C: {metrics: [B]}} *)
Definition cluster_map_run : ClusterMap :=
  {| clusters :=
       [("run", {| c_metrics := Some ["A"]; c_indicators := None |});
        ("C", {| c_metrics := Some ["B"]; c_indicators := None |})] |}.

(* --------------------------------------------------------------------- *)
(* Facts about the float order                                           *)
(* --------------------------------------------------------------------- *)

Section float_order.

(** Case analysis on the exponent and mantissa comparisons that
    [SFcompare] performs on two finite numbers. *)
Ltac cmp_cases :=
  repeat match goal with
  | |- context [Z.compare ?x ?y] => destruct (Z.compare_spec x y)
  | |- context [Pos.compare_cont Eq ?x ?y] =>
      change (Pos.compare_cont Eq x y) with (Pos.compare x y);
      destruct (Pos.compare_spec x y)
  end.

Ltac sf_cases :=
  simpl;
  repeat match goal with s : bool |- _ => destruct s end;
  simpl; try congruence;
  cmp_cases; simpl; try congruence;
  intros; exfalso; lia.

Lemma SFleb_trans (a b c : spec_float) :
  SFleb a b = true → SFleb b c = true → SFleb a c = true.
Proof.
  unfold SFleb.
  destruct a as [sa|sa| |sa ma ea], b as [sb|sb| |sb mb eb],
           c as [sc|sc| |sc mc ec]; sf_cases.
Qed.

Lemma SFltb_leb_trans (a b c : spec_float) :
  SFltb a b = true → SFleb b c = true → SFltb a c = true.
Proof.
  unfold SFleb, SFltb.
  destruct a as [sa|sa| |sa ma ea], b as [sb|sb| |sb mb eb],
           c as [sc|sc| |sc mc ec]; sf_cases.
Qed.

Lemma SFltb_not_leb (a b : spec_float) :
  SFltb a b = true → SFleb b a = false.
Proof.
  unfold SFleb, SFltb.
  destruct a as [sa|sa| |sa ma ea], b as [sb|sb| |sb mb eb]; sf_cases.
Qed.

(** [>=] is transitive on floats (a NaN on either side makes a premise
    false). *)
Lemma fge_trans (a b c : float) :
  fge a b = true → fge b c = true → fge a c = true.
Proof.
  unfold fge. rewrite !leb_spec. intros H1 H2.
  exact (SFleb_trans _ _ _ H2 H1).
Qed.

Lemma fle_fge (a b : float) : fle a b = fge b a.
Proof. reflexivity. Qed.

Lemma fge_fgt_trans (a b c : float) :
  fge a b = true → fgt b c = true → fgt a c = true.
Proof.
  unfold fge, fgt. rewrite !leb_spec, !ltb_spec. intros H1 H2.
  exact (SFltb_leb_trans _ _ _ H2 H1).
Qed.

(** [b > a] excludes [a >= b]. *)
Lemma fgt_not_fge (a b : float) : fgt b a = true → fge a b = false.
Proof.
  unfold fge, fgt. rewrite leb_spec, ltb_spec. apply SFltb_not_leb.
Qed.

Lemma abs_fzero : PrimFloat.abs fzero = fzero.
Proof. reflexivity. Qed.

End float_order.

(* --------------------------------------------------------------------- *)
(* The severity classifier                                               *)
(* --------------------------------------------------------------------- *)

Section classifier.

Implicit Types (x y v : float) (thr : Thresholds).

Lemma classify_severity_meets_spec v thr : severity_spec v thr (classify_severity v thr).
Proof.
  unfold classify_severity.
  destruct (fge (abs v) (thr_severe thr)) eqn:Hs;
    [by apply severity_spec_severe|].
  destruct (fge (abs v) (thr_moderate thr)) eqn:Hm;
    [by apply severity_spec_moderate|].
  destruct (fge (abs v) (thr_mild thr)) eqn:Hl;
    [by apply severity_spec_mild | by apply severity_spec_normal].
Qed.

Lemma severity_spec_functional v thr s1 s2 :
  severity_spec v thr s1 → severity_spec v thr s2 → s1 = s2.
Proof. destruct 1; destruct 1; congruence. Qed.

(** A bound met by [|x|] is met by every [|y|] above [|x|]. *)
Lemma bound_met_mono x y (b : float) :
  fle (abs x) (abs y) = true → fge (abs x) b = true → fge (abs y) b = true.
Proof. rewrite fle_fge. intros Hxy Hx. by apply fge_trans with (abs x). Qed.

(** The classifier is monotone in [|z|] whatever the thresholds are. *)
Lemma classify_severity_mono x y thr :
  fle (abs x) (abs y) = true →
  severity_le (classify_severity x thr) (classify_severity y thr).
Proof.
  intros Hxy. unfold classify_severity, severity_le.
  destruct (fge (abs x) (thr_severe thr)) eqn:Hs.
  { by rewrite (bound_met_mono _ _ _ Hxy Hs). }
  destruct (fge (abs x) (thr_moderate thr)) eqn:Hm.
  { rewrite (bound_met_mono _ _ _ Hxy Hm).
    destruct (fge (abs y) (thr_severe thr)); simpl; lia. }
  destruct (fge (abs x) (thr_mild thr)) eqn:Hl.
  { rewrite (bound_met_mono _ _ _ Hxy Hl).
    destruct (fge (abs y) (thr_severe thr)),
             (fge (abs y) (thr_moderate thr)); simpl; lia. }
  destruct (classify_severity y thr) eqn:Hy; unfold classify_severity in Hy;
    rewrite Hy; simpl; lia.
Qed.

(** The value 0 meets no positive bound. *)
Lemma classify_zero_positive_bounds thr :
  fgt (thr_mild thr) fzero = true →
  fgt (thr_moderate thr) fzero = true →
  fgt (thr_severe thr) fzero = true →
  classify_severity fzero thr = normal.
Proof.
  intros Hl Hm Hs. unfold classify_severity. rewrite abs_fzero.
  by rewrite (fgt_not_fge _ _ Hs), (fgt_not_fge _ _ Hm), (fgt_not_fge _ _ Hl).
Qed.

(** Under the ordering invariant of the data model, a positive mild bound
    makes the other two positive. *)
Lemma classify_zero_normal_ordered thr :
  fge (thr_severe thr) (thr_moderate thr) = true →
  fge (thr_moderate thr) (thr_mild thr) = true →
  fgt (thr_mild thr) fzero = true →
  classify_severity fzero thr = normal.
Proof.
  intros Hsm Hml Hl.
  assert (Hm : fgt (thr_moderate thr) fzero = true)
    by (by eapply fge_fgt_trans).
  assert (Hs : fgt (thr_severe thr) fzero = true)
    by (by eapply fge_fgt_trans).
  by apply classify_zero_positive_bounds.
Qed.

End classifier.

(** C2: for every value and every thresholds record, classify_severity
    returns severe if |v| >= thr.severe, else moderate if |v| >=
    thr.moderate, else mild if |v| >= thr.mild, else normal: the result is
    the one, and the only one, that the ordered chain of [>=] checks on the
    absolute value allows. *)
Theorem classify_severity_refines_spec (v : float) (thr : Thresholds) (s : Severity) :
  severity_spec v thr s ↔ classify_severity v thr = s.
Proof.
  split.
  - intros Hs. eapply severity_spec_functional; [apply classify_severity_meets_spec|done].
  - intros <-. apply classify_severity_meets_spec.
Qed.

(** C6, as stated, fails: with mild > 0 alone the value 0 can still meet
    the severe bound, which is checked first. *)
Lemma classify_zero_mild_positive_not_normal :
  fgt (thr_mild thr_severe_nonpositive) fzero = true
  ∧ classify_severity fzero thr_severe_nonpositive = severe
  ∧ classify_severity fzero thr_severe_nonpositive ≠ normal.
Proof. split; [reflexivity|]. split; [reflexivity|discriminate]. Qed.

(** C6, amended: when the three bounds are positive (mild > 0, moderate > 0
    and severe > 0), classify_severity(0, thr) returns normal. *)
Theorem classify_zero_normal (thr : Thresholds) :
  fgt (thr_mild thr) fzero = true →
  fgt (thr_moderate thr) fzero = true →
  fgt (thr_severe thr) fzero = true →
  classify_severity fzero thr = normal.
Proof. intros Hl Hm Hs. by apply classify_zero_positive_bounds. Qed.

Lemma classify_zero_normal_witness :
  classify_severity fzero (mkThresholds 3 2 1) = normal.
Proof. apply classify_zero_normal; reflexivity. Defined.

(** C7: for thresholds with severe >= moderate >= mild >= 0 and all values
    x, y with |x| <= |y|, classify_severity(x, thr) is at most
    classify_severity(y, thr) in the order normal < mild < moderate <
    severe. *)
Theorem classify_severity_monotone (thr : Thresholds) (x y : float) :
  fge (thr_severe thr) (thr_moderate thr) = true →
  fge (thr_moderate thr) (thr_mild thr) = true →
  fge (thr_mild thr) fzero = true →
  fle (abs x) (abs y) = true →
  severity_le (classify_severity x thr) (classify_severity y thr).
Proof. intros _ _ _. apply classify_severity_mono. Qed.

Lemma classify_severity_monotone_witness :
  severity_le (classify_severity 1.5 (mkThresholds 3 2 1))
              (classify_severity (-2.5) (mkThresholds 3 2 1)).
Proof. apply classify_severity_monotone; reflexivity. Defined.

(* --------------------------------------------------------------------- *)
(* The loops of cluster_scores                                           *)
(* --------------------------------------------------------------------- *)

Lemma Zsum_app (l1 l2 : list Z) : Zsum (l1 ++ l2) = Zsum l1 + Zsum l2.
Proof. unfold Zsum. induction l1 as [|x l1 IH]; simpl; lia. Qed.

Lemma bind_Ok {A B : Type} (a : A) (k : A → result B) : (Ok a ≫= k) = k a.
Proof. reflexivity. Qed.

Lemma foldM_cons {A S : Type} (body : S → A → result S) (st : S) (x : A)
    (l : list A) :
  foldM body st (x :: l) = (body st x ≫= fun st' => foldM body st' l).
Proof. reflexivity. Qed.

(** Two loops agree when their bodies agree on corresponding items. *)
Lemma foldM_fmap_ext {A B S : Type} (f : S → B → result S) (f' : S → A → result S)
    (h : A → B) (l : list A) :
  (∀ st x, x ∈ l → f st (h x) = f' st x) →
  ∀ st, foldM f st (h <$> l) = foldM f' st l.
Proof.
  induction l as [|x l IH]; intros Hext st; simpl; [done|].
  rewrite Hext by left.
  destruct (f' st x) as [st1|e]; simpl; [|done].
  apply IH. intros st' y Hy. apply Hext. by right.
Qed.

Lemma init_scores_from (cs : list (string * ClusterDef)) (acc : gmap string Z)
    (k : string) :
  foldl (fun scores entry => <[entry.1 := 0]> scores) acc cs !! k
  = if decide (k ∈ cs.*1) then Some 0 else acc !! k.
Proof.
  revert acc. induction cs as [|e cs IH]; intros acc.
  { reflexivity. }
  rewrite fmap_cons. simpl foldl. rewrite IH.
  destruct (decide (k ∈ cs.*1)) as [Hin|Hnin].
  - rewrite decide_True; [done|by right].
  - destruct (decide (e.1 = k)) as [<-|Hne].
    + rewrite lookup_insert_eq, decide_True; [done|by left].
    + rewrite lookup_insert_ne by done. rewrite decide_False; [done|].
      rewrite not_elem_of_cons. split; [congruence|done].
Qed.

Lemma init_scores_lookup (cs : list (string * ClusterDef)) (k : string) :
  init_scores cs !! k = if decide (k ∈ cs.*1) then Some 0 else None.
Proof. unfold init_scores. by rewrite init_scores_from, lookup_empty. Qed.

Section engine.

Context (run_row : RunRow) (thr_map : gmap string Thresholds).

Lemma metric_lookup_value m : metric_lookup run_row m = metric_value run_row m.
Proof.
  unfold metric_lookup, metric_value, dict_get.
  by destruct (run_row !! ("z_" +:+ m)), (run_row !! (m +:+ "_z_local")).
Qed.

Lemma indicator_lookup_value ind :
  indicator_lookup run_row ind = indicator_value run_row ind.
Proof. reflexivity. Qed.

(** The two inner loops have the same body up to the way a key is looked
    up in the run's row. *)
Definition key_step (look : string → option float) (cname : string)
    (st : engine_state) (k : string) : result engine_state :=
  match look k with
  | None => Ok st
  | Some z => record_symptom thr_map cname k z st
  end.

Definition found (look : string → option float) (keys : list string)
  : list (string * float) :=
  omap (fun k => pair k <$> look k) keys.

Lemma key_step_Some look cname st k z :
  look k = Some z → key_step look cname st k = record_symptom thr_map cname k z st.
Proof. unfold key_step. by intros ->. Qed.

Lemma key_step_None look cname st k :
  look k = None → key_step look cname st k = Ok st.
Proof. unfold key_step. by intros ->. Qed.

Lemma metric_step_key_step cname :
  metric_step run_row thr_map cname = key_step (metric_lookup run_row) cname.
Proof. reflexivity. Qed.

Lemma indicator_step_key_step cname :
  indicator_step run_row thr_map cname = key_step (indicator_lookup run_row) cname.
Proof. reflexivity. Qed.

Lemma found_cons look k keys :
  found look (k :: keys)
  = match look k with
    | Some z => (k, z) :: found look keys
    | None => found look keys
    end.
Proof. unfold found. simpl. by destruct (look k). Qed.

Lemma resolved_values_found c :
  resolved_values run_row c
  = found (metric_lookup run_row) (get_metrics c)
    ++ found (indicator_lookup run_row) (get_indicators c).
Proof.
  reflexivity.
Qed.

(* ---- without the "global" entry ---- *)

Section no_global.

Hypothesis Hglobal : thr_map !! "global" = None.

Lemma record_symptom_no_global cname key z st :
  record_symptom thr_map cname key z st = Raise (KeyError "global").
Proof. unfold record_symptom, getitem. by rewrite Hglobal. Qed.

Lemma foldM_key_step_no_global look cname keys st :
  foldM (key_step look cname) st keys
  = match found look keys with
    | [] => Ok st
    | _ :: _ => Raise (KeyError "global")
    end.
Proof.
  induction keys as [|k keys IH]; [done|].
  rewrite found_cons, foldM_cons.
  destruct (look k) as [z|] eqn:Hk.
  - by rewrite (key_step_Some _ _ _ _ _ Hk), record_symptom_no_global.
  - by rewrite (key_step_None _ _ _ _ Hk), bind_Ok.
Qed.

Lemma cluster_step_no_global st entry :
  cluster_step run_row thr_map st entry
  = match resolved_values run_row entry.2 with
    | [] => Ok st
    | _ :: _ => Raise (KeyError "global")
    end.
Proof.
  unfold cluster_step.
  rewrite metric_step_key_step, indicator_step_key_step, resolved_values_found.
  rewrite !foldM_key_step_no_global.
  destruct (found (metric_lookup run_row) (get_metrics entry.2)); simpl; [|done].
  by rewrite foldM_key_step_no_global.
Qed.

Lemma foldM_cluster_step_no_global cs st entry :
  entry ∈ cs → resolved_values run_row entry.2 ≠ [] →
  foldM (cluster_step run_row thr_map) st cs = Raise (KeyError "global").
Proof.
  intros Hin Hres. induction cs as [|e cs IH]; [by apply elem_of_nil in Hin|].
  simpl. rewrite cluster_step_no_global.
  destruct (resolved_values run_row e.2) eqn:He; simpl; [|done].
  apply elem_of_cons in Hin as [->|Hin]; [done|by apply IH].
Qed.

Lemma foldM_cluster_step_unresolved cs st :
  (∀ entry, entry ∈ cs → resolved_values run_row entry.2 = []) →
  foldM (cluster_step run_row thr_map) st cs = Ok st.
Proof.
  induction cs as [|e cs IH]; intros Hall; [done|].
  simpl. rewrite cluster_step_no_global, (Hall e) by left. simpl.
  apply IH. intros entry Hin. apply Hall. by right.
Qed.

End no_global.

(* ---- with the "global" entry ---- *)

Section with_global.

Context (g : Thresholds).
Hypothesis Hglobal : thr_map !! "global" = Some g.

Lemma resolve_with_global key :
  resolve key thr_map = Some (default g (thr_map !! key)).
Proof. unfold resolve. by destruct (thr_map !! key). Qed.

(** The state after the symptoms [kzs] of cluster [cname], whose score
    was [s], have been recorded. *)
Definition push_symptoms (cname : string) (s : Z) (kzs : list (string * float))
    (st : engine_state) : engine_state :=
  {| st_scores :=
       <[cname := s + Zsum ((fun kz => WEIGHT (symptom_severity thr_map g kz)) <$> kzs)]>
         (st_scores st);
     st_records :=
       st_records st
       ++ ((fun kz => symptom_record kz.1 kz.2 (symptom_severity thr_map g kz) cname)
             <$> kzs) |}.

Lemma push_symptoms_nil cname s st :
  st_scores st !! cname = Some s → push_symptoms cname s [] st = st.
Proof.
  intros Hs. destruct st as [scores records]. unfold push_symptoms. simpl in *.
  by rewrite Z.add_0_r, insert_id, app_nil_r.
Qed.

Lemma push_symptoms_app cname s kzs1 kzs2 st :
  push_symptoms cname
    (s + Zsum ((fun kz => WEIGHT (symptom_severity thr_map g kz)) <$> kzs1))
    kzs2 (push_symptoms cname s kzs1 st)
  = push_symptoms cname s (kzs1 ++ kzs2) st.
Proof.
  unfold push_symptoms. simpl.
  rewrite insert_insert_eq, !fmap_app, Zsum_app, Z.add_assoc.
  by rewrite <- app_assoc.
Qed.

Lemma record_symptom_ok cname key z st s :
  st_scores st !! cname = Some s →
  record_symptom thr_map cname key z st = Ok (push_symptoms cname s [(key, z)] st).
Proof.
  intros Hs. unfold record_symptom, getitem. rewrite Hglobal, bind_Ok, Hs, bind_Ok.
  unfold push_symptoms, symptom_severity, dict_get, Zsum. simpl.
  rewrite Z.add_0_r. by destruct (thr_map !! key).
Qed.

Lemma push_symptoms_score cname s kzs st :
  st_scores (push_symptoms cname s kzs st) !! cname
  = Some (s + Zsum ((fun kz => WEIGHT (symptom_severity thr_map g kz)) <$> kzs)).
Proof. unfold push_symptoms. simpl. apply lookup_insert_eq. Qed.

Lemma foldM_key_step_ok look cname keys st s :
  st_scores st !! cname = Some s →
  foldM (key_step look cname) st keys
  = Ok (push_symptoms cname s (found look keys) st).
Proof.
  revert st s. induction keys as [|k keys IH]; intros st s Hs.
  { simpl. by rewrite push_symptoms_nil. }
  rewrite found_cons, foldM_cons.
  destruct (look k) as [z|] eqn:Hk.
  - rewrite (key_step_Some _ _ _ _ _ Hk), (record_symptom_ok _ _ _ _ _ Hs), bind_Ok.
    rewrite (IH _ _ (push_symptoms_score _ _ _ _)).
    by rewrite push_symptoms_app.
  - rewrite (key_step_None _ _ _ _ Hk), bind_Ok. by apply IH.
Qed.

Lemma cluster_step_ok st entry s :
  st_scores st !! entry.1 = Some s →
  cluster_step run_row thr_map st entry
  = Ok (push_symptoms entry.1 s (resolved_values run_row entry.2) st).
Proof.
  intros Hs. unfold cluster_step.
  rewrite metric_step_key_step, indicator_step_key_step, resolved_values_found.
  rewrite (foldM_key_step_ok _ _ _ _ _ Hs), bind_Ok.
  rewrite (foldM_key_step_ok _ _ _ _ _ (push_symptoms_score _ _ _ _)).
  by rewrite push_symptoms_app.
Qed.

(** What the clusters named [k] add to the score stored under [k]. *)
Definition named_totals (k : string) (cs : list (string * ClusterDef)) : list Z :=
  (fun entry => if decide (entry.1 = k)
                then cluster_total run_row thr_map g entry.2 else 0) <$> cs.

Lemma named_totals_cons k e cs :
  Zsum (named_totals k (e :: cs))
  = (if decide (e.1 = k) then cluster_total run_row thr_map g e.2 else 0)
    + Zsum (named_totals k cs).
Proof. reflexivity. Qed.

Lemma named_totals_other k cs :
  k ∉ cs.*1 → Zsum (named_totals k cs) = 0.
Proof.
  induction cs as [|e cs IH]; [done|].
  rewrite fmap_cons, not_elem_of_cons. intros [Hne Hnin].
  rewrite named_totals_cons, (IH Hnin).
  by destruct (decide (e.1 = k)); [congruence|].
Qed.

(** In a dict the names are distinct: only the cluster itself adds to the
    score stored under its name. *)
Lemma named_totals_unique cs entry :
  NoDup cs.*1 → entry ∈ cs →
  Zsum (named_totals entry.1 cs) = cluster_total run_row thr_map g entry.2.
Proof.
  induction cs as [|e cs IH]; intros Hnd Hin; [by apply elem_of_nil in Hin|].
  rewrite fmap_cons in Hnd. apply NoDup_cons in Hnd as [Hfresh Hnd].
  rewrite named_totals_cons.
  apply elem_of_cons in Hin as [->|Hin].
  - rewrite decide_True by done. rewrite named_totals_other by done. lia.
  - assert (e.1 ≠ entry.1) as Hne.
    { intros Heq. apply Hfresh. rewrite Heq. by apply list_elem_of_fmap_2. }
    rewrite decide_False, IH by done. lia.
Qed.

Lemma foldM_cluster_step_ok cs st :
  (∀ n, n ∈ cs.*1 → is_Some (st_scores st !! n)) →
  ∃ st', foldM (cluster_step run_row thr_map) st cs = Ok st'
    ∧ st_records st'
      = st_records st ++ concat (cluster_records run_row thr_map g <$> cs)
    ∧ ∀ k, st_scores st' !! k
           = (fun s => s + Zsum (named_totals k cs)) <$> st_scores st !! k.
Proof.
  revert st. induction cs as [|e cs IH]; intros st Hdom.
  { exists st. split; [done|]. split; [by rewrite app_nil_r|].
    intros k. destruct (st_scores st !! k); simpl; [f_equal; lia|done]. }
  destruct (Hdom e.1) as [s Hs]; [rewrite fmap_cons; by left|].
  rewrite foldM_cons, (cluster_step_ok _ _ _ Hs), bind_Ok.
  destruct (IH (push_symptoms e.1 s (resolved_values run_row e.2) st))
    as (st' & Hrun & Hrec & Hsc).
  { intros n Hn. unfold push_symptoms. simpl.
    destruct (decide (e.1 = n)) as [->|Hne].
    - rewrite lookup_insert_eq. by eexists.
    - rewrite lookup_insert_ne by done. apply Hdom. rewrite fmap_cons. by right. }
  exists st'. split; [done|]. split.
  - rewrite Hrec. unfold push_symptoms. simpl. by rewrite <- app_assoc.
  - intros k. rewrite Hsc, named_totals_cons. unfold push_symptoms. simpl.
    destruct (decide (e.1 = k)) as [<-|Hne].
    + rewrite lookup_insert_eq, Hs. simpl. f_equal.
      unfold cluster_total. lia.
    + rewrite lookup_insert_ne by done.
      destruct (st_scores st !! k); simpl; [f_equal; lia|done].
Qed.

(** The whole function when "global" is configured: it returns, the
    records are those of the clusters in order, the labels are the labels
    of the scores, and the score under a name sums the totals of the
    clusters of that name. *)
Lemma cluster_scores_ok cluster_map :
  ∃ scores,
    cluster_scores run_row cluster_map thr_map
    = Ok (scores, score_label <$> scores,
          concat (cluster_records run_row thr_map g <$> clusters cluster_map))
    ∧ ∀ k, scores !! k
           = if decide (k ∈ (clusters cluster_map).*1)
             then Some (Zsum (named_totals k (clusters cluster_map)))
             else None.
Proof.
  unfold cluster_scores.
  destruct (foldM_cluster_step_ok (clusters cluster_map)
              {| st_scores := init_scores (clusters cluster_map);
                 st_records := [] |})
    as (st' & Hrun & Hrec & Hsc).
  { intros n Hn. simpl. rewrite init_scores_lookup, decide_True by done.
    by eexists. }
  rewrite Hrun, bind_Ok. exists (st_scores st'). split.
  - by rewrite Hrec.
  - intros k. rewrite Hsc. simpl. rewrite init_scores_lookup.
    by destruct (decide (k ∈ (clusters cluster_map).*1)).
Qed.

End with_global.

End engine.

(* --------------------------------------------------------------------- *)
(* Cluster scores and labels                                             *)
(* --------------------------------------------------------------------- *)

Lemma score_label_cases (t : Z) :
  (6 ≤ t ∧ score_label t = label_strong)
  ∨ (3 ≤ t < 6 ∧ score_label t = label_moderate)
  ∨ (1 ≤ t < 3 ∧ score_label t = label_weak)
  ∨ (t < 1 ∧ score_label t = label_none).
Proof.
  unfold score_label.
  destruct (Z.leb_spec 6 t); [by left|right].
  destruct (Z.leb_spec 3 t); [left; split; [lia|done]|right].
  destruct (Z.leb_spec 1 t); [left; split; [lia|done]|right].
  split; [lia|done].
Qed.

(** The labels are computed from the scores alone. *)
Lemma cluster_scores_labels run_row cluster_map thr_map scores labels records :
  cluster_scores run_row cluster_map thr_map = Ok (scores, labels, records) →
  labels = score_label <$> scores.
Proof.
  unfold cluster_scores.
  destruct (foldM _ _ _) as [st|e]; simpl; [|discriminate].
  by intros [= <- <- <-].
Qed.

(** C1: with "global" configured, cluster_scores returns, and the score of
    every cluster is the sum of WEIGHT[severity] over the values resolved
    for its configured metrics and indicators, with WEIGHT = {normal: 0,
    mild: 1, moderate: 2, severe: 3}; a cluster for which no configured key
    resolves has score 0 and label none. *)
Theorem cluster_score_weight_sum (run_row : RunRow) (cluster_map : ClusterMap)
    (thr_map : gmap string Thresholds) (g : Thresholds) :
  thr_map !! "global" = Some g →
  NoDup (clusters cluster_map).*1 →
  ∃ scores labels records,
    cluster_scores run_row cluster_map thr_map = Ok (scores, labels, records)
    ∧ (WEIGHT normal = 0 ∧ WEIGHT mild = 1 ∧ WEIGHT moderate = 2 ∧ WEIGHT severe = 3)
    ∧ ∀ cname c, (cname, c) ∈ clusters cluster_map →
        scores !! cname
        = Some (Zsum ((fun kz => WEIGHT (classify_severity kz.2
                                           (default g (thr_map !! kz.1))))
                        <$> resolved_values run_row c))
        ∧ (resolved_values run_row c = [] →
           scores !! cname = Some 0 ∧ labels !! cname = Some label_none).
Proof.
  intros Hg Hnd.
  destruct (cluster_scores_ok run_row thr_map g Hg cluster_map) as (scores & Hrun & Hsc).
  exists scores, (score_label <$> scores),
    (concat (cluster_records run_row thr_map g <$> clusters cluster_map)).
  split; [done|]. split; [done|].
  intros cname c Hin.
  assert (scores !! cname = Some (cluster_total run_row thr_map g c)) as Hscore.
  { rewrite Hsc, decide_True by (by apply (list_elem_of_fmap_2 fst _ (cname, c))).
    by rewrite (named_totals_unique run_row thr_map g _ (cname, c)). }
  split; [exact Hscore|].
  intros Hnone. rewrite lookup_fmap, Hscore.
  unfold cluster_total. by rewrite Hnone.
Qed.

Lemma cluster_score_weight_sum_witness :
  ∃ scores labels records,
    cluster_scores run_row_AB cluster_map_CD thr_map_global
    = Ok (scores, labels, records)
    ∧ (WEIGHT normal = 0 ∧ WEIGHT mild = 1 ∧ WEIGHT moderate = 2 ∧ WEIGHT severe = 3)
    ∧ ∀ cname c, (cname, c) ∈ clusters cluster_map_CD →
        scores !! cname
        = Some (Zsum ((fun kz => WEIGHT (classify_severity kz.2
                                           (default thr_123 (thr_map_global !! kz.1))))
                        <$> resolved_values run_row_AB c))
        ∧ (resolved_values run_row_AB c = [] →
           scores !! cname = Some 0 ∧ labels !! cname = Some label_none).
Proof.
  apply cluster_score_weight_sum.
  - reflexivity.
  - apply (bool_decide_unpack _). vm_compute. exact I.
Defined.

(** The example of the specification: z_A = 2.5 is moderate, z_B = 3.5 is
    severe, cluster C scores 5, is labelled moderate, and two records are
    emitted. *)
Example cluster_scores_example :
  cluster_scores run_row_AB cluster_map_C thr_map_global
  = Ok ({["C" := 5]}, {["C" := label_moderate]},
        [symptom_record "A" 2.5 moderate "C"; symptom_record "B" 3.5 severe "C"]).
Proof. vm_compute. reflexivity. Qed.

(** C3: the label of a cluster is the label of its score, and for every
    integer score s the label is strong if s >= 6, moderate if 3 <= s < 6,
    weak if 1 <= s < 3 and none if s < 1; so 6 is strong, 5 and 3 are
    moderate, 2 and 1 are weak and 0 is none, whatever the cluster. *)
Theorem label_breakpoints (run_row : RunRow) (cluster_map : ClusterMap)
    (thr_map : gmap string Thresholds) scores labels records (cname : string) (s : Z) :
  cluster_scores run_row cluster_map thr_map = Ok (scores, labels, records) →
  scores !! cname = Some s →
  labels !! cname = Some (score_label s)
  ∧ (∀ t : Z, (6 ≤ t ∧ score_label t = label_strong)
             ∨ (3 ≤ t < 6 ∧ score_label t = label_moderate)
             ∨ (1 ≤ t < 3 ∧ score_label t = label_weak)
             ∨ (t < 1 ∧ score_label t = label_none))
  ∧ score_label 6 = label_strong
  ∧ score_label 5 = label_moderate ∧ score_label 3 = label_moderate
  ∧ score_label 2 = label_weak ∧ score_label 1 = label_weak
  ∧ score_label 0 = label_none.
Proof.
  intros Hrun Hs. split.
  - rewrite (cluster_scores_labels _ _ _ _ _ _ Hrun), lookup_fmap. by rewrite Hs.
  - split; [apply score_label_cases|]. by repeat split.
Qed.

Lemma label_breakpoints_witness :
  ({["C" := label_moderate]} : gmap string Label) !! "C" = Some (score_label 5)
  ∧ (∀ t : Z, (6 ≤ t ∧ score_label t = label_strong)
             ∨ (3 ≤ t < 6 ∧ score_label t = label_moderate)
             ∨ (1 ≤ t < 3 ∧ score_label t = label_weak)
             ∨ (t < 1 ∧ score_label t = label_none))
  ∧ score_label 6 = label_strong
  ∧ score_label 5 = label_moderate ∧ score_label 3 = label_moderate
  ∧ score_label 2 = label_weak ∧ score_label 1 = label_weak
  ∧ score_label 0 = label_none.
Proof.
  apply (label_breakpoints run_row_AB cluster_map_C thr_map_global
           {["C" := 5]} {["C" := label_moderate]}
           [symptom_record "A" 2.5 moderate "C"; symptom_record "B" 3.5 severe "C"]
           "C" 5).
  - vm_compute. reflexivity.
  - reflexivity.
Defined.

(* --------------------------------------------------------------------- *)
(* Unresolved metrics                                                    *)
(* --------------------------------------------------------------------- *)

Lemma metric_step_unresolved run_row thr_map cname st m :
  run_row !! ("z_" +:+ m) = None →
  run_row !! (m +:+ "_z_local") = None →
  metric_step run_row thr_map cname st m = Ok st.
Proof.
  intros Hz Hlocal. unfold metric_step, metric_lookup, dict_get.
  by rewrite Hz, Hlocal.
Qed.

(** Items on which the body does nothing can be dropped from a loop. *)
Lemma foldM_filter_skip {S : Type} (body : S → string → result S) (m : string)
    (l : list string) :
  (∀ st, body st m = Ok st) →
  ∀ st, foldM body st (filter (fun x => x ≠ m) l) = foldM body st l.
Proof.
  intros Hskip. induction l as [|x l IH]; intros st; [done|].
  rewrite filter_cons, foldM_cons. destruct (decide (x ≠ m)) as [Hne|Heq].
  - rewrite foldM_cons. destruct (body st x) as [st1|e]; [|done].
    rewrite !bind_Ok. apply IH.
  - apply dec_stable in Heq as ->. rewrite Hskip, bind_Ok. apply IH.
Qed.

Lemma clusters_without_metric m cluster_map :
  clusters (without_metric m cluster_map)
  = (fun entry =>
       (entry.1,
        {| c_metrics := filter (fun x => x ≠ m) <$> c_metrics entry.2;
           c_indicators := c_indicators entry.2 |}))
      <$> clusters cluster_map.
Proof. reflexivity. Qed.

Lemma init_scores_without_metric m cluster_map :
  init_scores (clusters (without_metric m cluster_map))
  = init_scores (clusters cluster_map).
Proof.
  apply map_eq. intros k. rewrite !init_scores_lookup.
  rewrite clusters_without_metric. by rewrite <- list_fmap_compose.
Qed.

Lemma cluster_scores_without_metric run_row cluster_map thr_map m :
  (∀ cname st, metric_step run_row thr_map cname st m = Ok st) →
  cluster_scores run_row (without_metric m cluster_map) thr_map
  = cluster_scores run_row cluster_map thr_map.
Proof.
  intros Hskip. unfold cluster_scores.
  rewrite init_scores_without_metric.
  rewrite clusters_without_metric.
  rewrite (foldM_fmap_ext _ (cluster_step run_row thr_map)); [done|].
  intros st entry _. unfold cluster_step, get_metrics, get_indicators. simpl.
  destruct (c_metrics entry.2) as [ms|]; simpl; [|done].
  by rewrite foldM_filter_skip.
Qed.

(** C4: a configured metric m is looked up under "z_" + m first and, only
    when that key is absent, under m + "_z_local"; when neither key is in
    the row, the loop body leaves the scores and the records as they are,
    and the whole result is the one obtained with m dropped from the
    configuration: no contribution to any score and no record. *)
Theorem unresolved_metric_skipped (run_row : RunRow) (cluster_map : ClusterMap)
    (thr_map : gmap string Thresholds) (m : string) :
  run_row !! ("z_" +:+ m) = None →
  run_row !! (m +:+ "_z_local") = None →
  (∀ m', metric_lookup run_row m' = metric_value run_row m')
  ∧ metric_lookup run_row m = None
  ∧ (∀ cname st, metric_step run_row thr_map cname st m = Ok st)
  ∧ cluster_scores run_row (without_metric m cluster_map) thr_map
    = cluster_scores run_row cluster_map thr_map.
Proof.
  intros Hz Hlocal.
  assert (∀ cname st, metric_step run_row thr_map cname st m = Ok st) as Hskip.
  { intros cname st. by apply metric_step_unresolved. }
  split; [apply metric_lookup_value|]. split.
  { unfold metric_lookup, dict_get. by rewrite Hz, Hlocal. }
  split; [exact Hskip|]. by apply cluster_scores_without_metric.
Qed.

Lemma unresolved_metric_skipped_witness :
  (∀ m', metric_lookup run_row_AB m' = metric_value run_row_AB m')
  ∧ metric_lookup run_row_AB "E" = None
  ∧ (∀ cname st, metric_step run_row_AB thr_map_global cname st "E" = Ok st)
  ∧ cluster_scores run_row_AB (without_metric "E" cluster_map_CD) thr_map_global
    = cluster_scores run_row_AB cluster_map_CD thr_map_global.
Proof. apply unresolved_metric_skipped; reflexivity. Defined.

(** The second candidate key is used when the first is absent, and only
    then. *)
Example metric_lookup_priority :
  metric_lookup run_row_local "B" = Some 0.5%float
  ∧ metric_lookup (<["z_B" := Some 1.5%float]> run_row_local) "B" = Some 1.5%float
  ∧ metric_lookup (<["z_B" := None]> run_row_local) "B" = None.
Proof. by vm_compute. Qed.

(* --------------------------------------------------------------------- *)
(* Symptom records and the thresholds behind them                        *)
(* --------------------------------------------------------------------- *)

Lemma length_all_resolved run_row cs :
  length (all_resolved run_row cs)
  = length (concat ((fun entry => resolved_values run_row entry.2) <$> cs)).
Proof.
  unfold all_resolved. induction cs as [|e cs IH]; [done|].
  rewrite !fmap_cons, !concat_cons, !length_app, IH. by rewrite length_fmap.
Qed.

Lemma length_cluster_records run_row thr_map g cs :
  length (concat (cluster_records run_row thr_map g <$> cs))
  = length (all_resolved run_row cs).
Proof.
  unfold all_resolved. induction cs as [|e cs IH]; [done|].
  rewrite !fmap_cons, !concat_cons, !length_app, IH.
  unfold cluster_records. by rewrite !length_fmap.
Qed.

(** Each record stems from one resolved value, and its severity is the
    classification of that value under the thresholds resolved for the
    configured key. *)
Lemma cluster_records_resolve run_row thr_map g cs :
  thr_map !! "global" = Some g →
  Forall2 (fun r ckz =>
             ∃ thr, resolve ckz.2.1 thr_map = Some thr
                    ∧ r = symptom_record ckz.2.1 ckz.2.2
                            (classify_severity ckz.2.2 thr) ckz.1)
          (concat (cluster_records run_row thr_map g <$> cs))
          (all_resolved run_row cs).
Proof.
  intros Hg. unfold all_resolved.
  induction cs as [|e cs IH]; [by constructor|].
  rewrite !fmap_cons, !concat_cons. apply Forall2_app; [|exact IH].
  unfold cluster_records. apply Forall2_fmap, Forall_Forall2_diag, Forall_forall.
  intros kz _. exists (default g (thr_map !! kz.1)).
  split; [by apply resolve_with_global|done].
Qed.

(** C5, as stated, fails: a value found under the row key "z_A" is not
    classified under the thresholds resolved for "z_A". *)
Lemma threshold_not_resolved_by_row_key : ¬ thresholds_resolved_by_row_key.
Proof.
  intros Hclaim.
  specialize (Hclaim run_row_AB cluster_map_C thr_map_row_key
                {["C" := 5]} {["C" := label_moderate]}
                [symptom_record "A" 2.5 moderate "C"; symptom_record "B" 3.5 severe "C"]
                "C" {| c_metrics := Some ["A"; "B"]; c_indicators := None |}
                "A" 2.5%float (mkThresholds 30 20 10)).
  assert (symptom_record "A" 2.5 (classify_severity 2.5 (mkThresholds 30 20 10)) "C"
          ∈ [symptom_record "A" 2.5 moderate "C"; symptom_record "B" 3.5 severe "C"])
    as Hin.
  { apply Hclaim.
    - by vm_compute.
    - by left.
    - by left.
    - reflexivity.
    - reflexivity. }
  apply elem_of_cons in Hin as [Heq|Hin]; [by vm_compute in Heq|].
  apply elem_of_cons in Hin as [Heq|Hin]; [by vm_compute in Heq|].
  by apply elem_of_nil in Hin.
Qed.

(** C5, amended: with "global" configured, every resolved value is
    classified under resolve(key, thr_map), where key is the configured
    metric or indicator name (the key the record carries), also when the
    value was found in the row under "z_" + m or m + "_z_local"; resolve
    returns thr_map[key] when key is in the map and thr_map["global"]
    otherwise. *)
Theorem thresholds_resolved_by_configured_key (run_row : RunRow)
    (cluster_map : ClusterMap) (thr_map : gmap string Thresholds) (g : Thresholds) :
  thr_map !! "global" = Some g →
  (∀ key, resolve key thr_map
          = match thr_map !! key with
            | Some t => Some t
            | None => Some g
            end)
  ∧ ∃ scores labels records,
      cluster_scores run_row cluster_map thr_map = Ok (scores, labels, records)
      ∧ Forall2 (fun r ckz =>
                   ∃ thr, resolve ckz.2.1 thr_map = Some thr
                          ∧ r = symptom_record ckz.2.1 ckz.2.2
                                  (classify_severity ckz.2.2 thr) ckz.1)
                records (all_resolved run_row (clusters cluster_map)).
Proof.
  intros Hg. split.
  { intros key. unfold resolve. by destruct (thr_map !! key). }
  destruct (cluster_scores_ok run_row thr_map g Hg cluster_map) as (scores & Hrun & _).
  eexists _, _, _. split; [exact Hrun|]. by apply cluster_records_resolve.
Qed.

Lemma thresholds_resolved_by_configured_key_witness :
  (∀ key, resolve key thr_map_row_key
          = match thr_map_row_key !! key with
            | Some t => Some t
            | None => Some thr_123
            end)
  ∧ ∃ scores labels records,
      cluster_scores run_row_AB cluster_map_C thr_map_row_key
      = Ok (scores, labels, records)
      ∧ Forall2 (fun r ckz =>
                   ∃ thr, resolve ckz.2.1 thr_map_row_key = Some thr
                          ∧ r = symptom_record ckz.2.1 ckz.2.2
                                  (classify_severity ckz.2.2 thr) ckz.1)
                records (all_resolved run_row_AB (clusters cluster_map_C)).
Proof. apply thresholds_resolved_by_configured_key. reflexivity. Defined.

(** C8: with "global" configured, the records are, cluster by cluster and
    in order, exactly one record per resolved value, carrying the
    configured key, the value, its severity and the cluster's name; a
    value classified normal has its record like any other, and a key that
    does not resolve has none. *)
Theorem one_record_per_resolved_value (run_row : RunRow) (cluster_map : ClusterMap)
    (thr_map : gmap string Thresholds) (g : Thresholds) :
  thr_map !! "global" = Some g →
  ∃ scores labels records,
    cluster_scores run_row cluster_map thr_map = Ok (scores, labels, records)
    ∧ records
      = concat ((fun entry =>
                   (fun kz => symptom_record kz.1 kz.2
                                (classify_severity kz.2 (default g (thr_map !! kz.1)))
                                entry.1)
                     <$> resolved_values run_row entry.2)
                  <$> clusters cluster_map)
    ∧ length records
      = length (concat ((fun entry => resolved_values run_row entry.2)
                          <$> clusters cluster_map)).
Proof.
  intros Hg.
  destruct (cluster_scores_ok run_row thr_map g Hg cluster_map) as (scores & Hrun & _).
  eexists _, _, _. split; [exact Hrun|]. split; [done|].
  by rewrite length_cluster_records, length_all_resolved.
Qed.

Lemma one_record_per_resolved_value_witness :
  ∃ scores labels records,
    cluster_scores run_row_local cluster_map_CD thr_map_global
    = Ok (scores, labels, records)
    ∧ records
      = concat ((fun entry =>
                   (fun kz => symptom_record kz.1 kz.2
                                (classify_severity kz.2
                                   (default thr_123 (thr_map_global !! kz.1)))
                                entry.1)
                     <$> resolved_values run_row_local entry.2)
                  <$> clusters cluster_map_CD)
    ∧ length records
      = length (concat ((fun entry => resolved_values run_row_local entry.2)
                          <$> clusters cluster_map_CD)).
Proof. apply one_record_per_resolved_value. reflexivity. Defined.

(** A value classified normal is recorded; the unresolved keys of cluster
    D leave no record. *)
Example normal_severity_recorded :
  cluster_scores run_row_local cluster_map_CD thr_map_global
  = Ok ({["C" := 2; "D" := 0]}, {["C" := label_weak; "D" := label_none]},
        [symptom_record "A" 2.5 moderate "C"; symptom_record "B" 0.5 normal "C"]).
Proof. vm_compute. reflexivity. Qed.

(* --------------------------------------------------------------------- *)
(* The missing "global" entry                                            *)
(* --------------------------------------------------------------------- *)

Lemma resolved_values_cons_ne run_row c kz :
  kz ∈ resolved_values run_row c → resolved_values run_row c ≠ [].
Proof. intros Hin Hnil. rewrite Hnil in Hin. by apply elem_of_nil in Hin. Qed.

(** C10: without a "global" entry, cluster_scores raises KeyError as soon
    as a metric or indicator value resolves, whether or not the key has an
    entry of its own in the threshold map. *)
Theorem missing_global_raises (run_row : RunRow) (cluster_map : ClusterMap)
    (thr_map : gmap string Thresholds) (cname : string) (c : ClusterDef)
    (key : string) (z : float) :
  thr_map !! "global" = None →
  (cname, c) ∈ clusters cluster_map →
  (key, z) ∈ resolved_values run_row c →
  cluster_scores run_row cluster_map thr_map = Raise (KeyError "global").
Proof.
  intros Hg Hin Hres. unfold cluster_scores.
  rewrite (foldM_cluster_step_no_global run_row thr_map Hg _ _ (cname, c)); [done|done|].
  by eapply resolved_values_cons_ne.
Qed.

Lemma missing_global_raises_witness :
  is_Some (thr_map_no_global !! "A")
  ∧ cluster_scores run_row_AB cluster_map_C thr_map_no_global
    = Raise (KeyError "global").
Proof.
  split; [by eexists|].
  apply (missing_global_raises run_row_AB cluster_map_C thr_map_no_global
           "C" {| c_metrics := Some ["A"; "B"]; c_indicators := None |}
           "A" 2.5%float).
  - reflexivity.
  - by left.
  - by left.
Defined.

(** Without "global" and without any resolved value, nothing is raised. *)
Lemma missing_global_unused run_row cluster_map thr_map :
  thr_map !! "global" = None →
  (∀ entry, entry ∈ clusters cluster_map → resolved_values run_row entry.2 = []) →
  cluster_scores run_row cluster_map thr_map
  = Ok (init_scores (clusters cluster_map),
        score_label <$> init_scores (clusters cluster_map), []).
Proof.
  intros Hg Hall. unfold cluster_scores.
  by rewrite (foldM_cluster_step_unresolved run_row thr_map Hg _ _ Hall).
Qed.

(* --------------------------------------------------------------------- *)
(* The symptom table written by diagnose_runs                            *)
(* --------------------------------------------------------------------- *)

Lemma mapM_Forall {A B : Type} (f : A → result B) (P : B → Prop) (l : list A)
    (l' : list B) :
  (∀ x y, f x = Ok y → P y) → mapM f l = Ok l' → Forall P l'.
Proof.
  intros Hf. revert l'. induction l as [|x l IH]; intros l'; simpl.
  { intros [= <-]. constructor. }
  destruct (f x) as [y|e] eqn:Hx; simpl; [|discriminate].
  destruct (mapM f l) as [ys|e]; simpl; [|discriminate].
  intros [= <-]. constructor; [by eapply Hf|by apply IH].
Qed.

(** Every row appended to symptom_rows has the same five keys, the last
    of which is 'clusters'. *)
Lemma symptom_row_keys row r d :
  symptom_row row r = Ok d →
  pydict_keys d = ["run"; "metric"; "z"; "severity"; "clusters"].
Proof.
  unfold symptom_row.
  destruct (getitem row "run"); simpl; [|discriminate].
  destruct (pydict_getitem r "metric"); simpl; [|discriminate].
  destruct (pydict_getitem r "z"); simpl; [|discriminate].
  destruct (pydict_getitem r "severity"); simpl; [|discriminate].
  destruct (pydict_getitem r "cluster"); simpl; [|discriminate].
  by intros [= <-].
Qed.

Lemma symptom_rows_of_run_keys cluster_map thr_map rows row rows' :
  Forall (fun d => pydict_keys d = ["run"; "metric"; "z"; "severity"; "clusters"]) rows →
  symptom_rows_of_run cluster_map thr_map rows row = Ok rows' →
  Forall (fun d => pydict_keys d = ["run"; "metric"; "z"; "severity"; "clusters"]) rows'.
Proof.
  intros Hrows. unfold symptom_rows_of_run.
  destruct (cluster_scores row cluster_map thr_map) as [res|e]; simpl; [|discriminate].
  destruct (mapM (symptom_row row) res.2) as [new_rows|e] eqn:Hnew; simpl;
    [|discriminate].
  intros [= <-]. apply Forall_app. split; [done|].
  eapply mapM_Forall; [|exact Hnew]. intros r d. apply symptom_row_keys.
Qed.

Lemma diagnose_symptom_rows_keys wide cluster_map thr_map rows :
  diagnose_symptom_rows wide cluster_map thr_map = Ok rows →
  Forall (fun d => pydict_keys d = ["run"; "metric"; "z"; "severity"; "clusters"]) rows.
Proof.
  unfold diagnose_symptom_rows.
  assert (Forall (fun d => pydict_keys d
                           = ["run"; "metric"; "z"; "severity"; "clusters"])
                 (@nil pydict)) as Hnil by constructor.
  revert Hnil. generalize (@nil pydict) as acc. revert rows.
  induction wide as [|row wide IH]; intros rows acc Hacc; simpl.
  { by intros [= <-]. }
  destruct (symptom_rows_of_run cluster_map thr_map acc row) as [acc'|e] eqn:Hrow;
    simpl; [|discriminate].
  apply IH. by eapply symptom_rows_of_run_keys.
Qed.

(** C9: the rows written for the run {run: 7, z_A: 2.5, z_B: 3.5} have the
    fields run, metric, z, severity and clusters: the last field is named
    'clusters', not 'cluster'. *)
Theorem symptom_rows_field_clusters :
  ∃ rows,
    diagnose_symptom_rows [run_row_7] cluster_map_C thr_map_global = Ok rows
    ∧ pydict_keys <$> rows
      = [["run"; "metric"; "z"; "severity"; "clusters"];
         ["run"; "metric"; "z"; "severity"; "clusters"]]
    ∧ Forall (fun d => pydict_keys d ≠ ["run"; "metric"; "z"; "severity"; "cluster"])
             rows.
Proof.
  eexists. split; [by vm_compute|]. split; [reflexivity|].
  repeat constructor; discriminate.
Qed.

(* ===================================================================== *)
(*  Further properties of the code                                       *)
(* ===================================================================== *)

(* --------------------------------------------------------------------- *)
(* The classifier: sign, NaN, ordered and misordered bounds              *)
(* --------------------------------------------------------------------- *)

Lemma SFabs_SFopp (a : spec_float) : SFabs (SFopp a) = SFabs a.
Proof. by destruct a. Qed.

Lemma abs_opp (z : float) : abs (- z) = abs z.
Proof.
  apply Prim2SF_inj. by rewrite !abs_spec, opp_spec, SFabs_SFopp.
Qed.

Lemma SFeqb_self_false (a : spec_float) : SFeqb a a = false → a = S754_nan.
Proof.
  unfold SFeqb. destruct a as [s|s| |s m e]; simpl; try done.
  - by destruct s.
  - rewrite Z.compare_refl.
    change (Pos.compare_cont Eq m m) with (Pos.compare m m).
    rewrite Pos.compare_refl. by destruct s.
Qed.

Lemma SFleb_nan_r (a : spec_float) : SFleb a S754_nan = false.
Proof. by destruct a. Qed.

(** No bound is met by the magnitude of a NaN. *)
Lemma fge_abs_nan (z b : float) : is_nan z = true → fge (abs z) b = false.
Proof.
  unfold is_nan. rewrite FloatAxioms.eqb_spec, negb_true_iff.
  intros Hnan%SFeqb_self_false.
  unfold fge. by rewrite FloatAxioms.leb_spec, abs_spec, Hnan, SFleb_nan_r.
Qed.

(** X1: the classifier sees only the magnitude of a value: z and -z get
    the same severity, whatever the thresholds. *)
Theorem classify_severity_sign_symmetric (z : float) (thr : Thresholds) :
  classify_severity (- z) thr = classify_severity z thr.
Proof. unfold classify_severity. by rewrite abs_opp. Qed.

(** X2: a NaN value (what a missing cell of a merged table holds) is not
    None, so it is classified, and it is classified normal whatever the
    thresholds are, since every comparison with NaN is false. *)
Theorem classify_severity_nan (z : float) (thr : Thresholds) :
  is_nan z = true → classify_severity z thr = normal.
Proof.
  intros Hnan. unfold classify_severity.
  by rewrite !(fge_abs_nan _ _ Hnan).
Qed.

Lemma classify_severity_nan_witness :
  classify_severity nan thr_123 = normal.
Proof. apply classify_severity_nan. reflexivity. Defined.

Lemma ordered_bounds_met z thr :
  fge (thr_severe thr) (thr_moderate thr) = true →
  fge (thr_moderate thr) (thr_mild thr) = true →
  (fge (abs z) (thr_severe thr) = true → fge (abs z) (thr_moderate thr) = true)
  ∧ (fge (abs z) (thr_moderate thr) = true → fge (abs z) (thr_mild thr) = true).
Proof.
  intros Hsm Hml. split; intros Hmet; by eapply fge_trans.
Qed.

(** X3: when the bounds are ordered (severe >= moderate >= mild) the order
    of the checks is immaterial: the severity is read off each bound
    separately, a value being normal exactly when it misses the mild
    bound, mild when it meets mild and misses moderate, moderate when it
    meets moderate and misses severe, severe when it meets severe. *)
Theorem classify_severity_ordered_bounds (z : float) (thr : Thresholds) :
  fge (thr_severe thr) (thr_moderate thr) = true →
  fge (thr_moderate thr) (thr_mild thr) = true →
  (classify_severity z thr = normal ↔ fge (abs z) (thr_mild thr) = false)
  ∧ (classify_severity z thr = mild
     ↔ fge (abs z) (thr_mild thr) = true ∧ fge (abs z) (thr_moderate thr) = false)
  ∧ (classify_severity z thr = moderate
     ↔ fge (abs z) (thr_moderate thr) = true ∧ fge (abs z) (thr_severe thr) = false)
  ∧ (classify_severity z thr = severe ↔ fge (abs z) (thr_severe thr) = true).
Proof.
  intros Hsm Hml.
  destruct (ordered_bounds_met z thr Hsm Hml) as [Hs Hm].
  unfold classify_severity.
  destruct (fge (abs z) (thr_severe thr)) eqn:Es.
  { rewrite (Hs eq_refl), (Hm (Hs eq_refl)). by repeat split; intros; destruct_and?. }
  destruct (fge (abs z) (thr_moderate thr)) eqn:Em.
  { rewrite (Hm eq_refl). by repeat split; intros; destruct_and?. }
  destruct (fge (abs z) (thr_mild thr)) eqn:El;
    by repeat split; intros; destruct_and?.
Qed.

Lemma classify_severity_ordered_bounds_witness :
  (classify_severity 1.5 thr_123 = normal ↔ fge (abs 1.5) (thr_mild thr_123) = false)
  ∧ (classify_severity 1.5 thr_123 = mild
     ↔ fge (abs 1.5) (thr_mild thr_123) = true
       ∧ fge (abs 1.5) (thr_moderate thr_123) = false)
  ∧ (classify_severity 1.5 thr_123 = moderate
     ↔ fge (abs 1.5) (thr_moderate thr_123) = true
       ∧ fge (abs 1.5) (thr_severe thr_123) = false)
  ∧ (classify_severity 1.5 thr_123 = severe
     ↔ fge (abs 1.5) (thr_severe thr_123) = true).
Proof. apply classify_severity_ordered_bounds; reflexivity. Defined.

(** X4: a severe bound at or below the moderate bound shadows the
    moderate tier: no value is ever classified moderate. *)
Theorem misordered_severe_shadows_moderate (z : float) (thr : Thresholds) :
  fge (thr_moderate thr) (thr_severe thr) = true →
  classify_severity z thr ≠ moderate.
Proof.
  intros Hms. unfold classify_severity.
  destruct (fge (abs z) (thr_severe thr)) eqn:Es; [done|].
  destruct (fge (abs z) (thr_moderate thr)) eqn:Em.
  - by rewrite (fge_trans _ _ _ Em Hms) in Es.
  - by destruct (fge (abs z) (thr_mild thr)).
Qed.

Lemma misordered_severe_shadows_moderate_witness :
  classify_severity 2.5 (mkThresholds 2 3 1) ≠ moderate.
Proof. apply misordered_severe_shadows_moderate. reflexivity. Defined.

(** X5: a moderate or severe bound at or below the mild bound shadows the
    mild tier: no value is ever classified mild. *)
Theorem misordered_bound_shadows_mild (z : float) (thr : Thresholds) :
  fge (thr_mild thr) (thr_moderate thr) = true
  ∨ fge (thr_mild thr) (thr_severe thr) = true →
  classify_severity z thr ≠ mild.
Proof.
  intros Hshadow. unfold classify_severity.
  destruct (fge (abs z) (thr_severe thr)) eqn:Es; [done|].
  destruct (fge (abs z) (thr_moderate thr)) eqn:Em; [done|].
  destruct (fge (abs z) (thr_mild thr)) eqn:El; [|done].
  destruct Hshadow as [Hlm|Hls].
  - by rewrite (fge_trans _ _ _ El Hlm) in Em.
  - by rewrite (fge_trans _ _ _ El Hls) in Es.
Qed.

Lemma misordered_bound_shadows_mild_witness :
  classify_severity 1.5 (mkThresholds 3 1 2) ≠ mild.
Proof. apply misordered_bound_shadows_mild. left. reflexivity. Defined.

(* --------------------------------------------------------------------- *)
(* cluster_scores: what a returned result looks like                     *)
(* --------------------------------------------------------------------- *)

Lemma foldM_ext_in {A S : Type} (f f' : S → A → result S) (l : list A) :
  (∀ st x, x ∈ l → f st x = f' st x) →
  ∀ st, foldM f st l = foldM f' st l.
Proof.
  intros Hext st. rewrite <- (list_fmap_id l) at 1.
  by apply foldM_fmap_ext.
Qed.

Lemma WEIGHT_bounds (s : Severity) : 0 ≤ WEIGHT s ≤ 3.
Proof. destruct s; simpl; lia. Qed.

Lemma WEIGHT_zero (s : Severity) : WEIGHT s = 0 ↔ s = normal.
Proof. by destruct s. Qed.

Lemma Zsum_weights_bounds {A : Type} (sev : A → Severity) (l : list A) :
  0 ≤ Zsum ((fun x => WEIGHT (sev x)) <$> l) ≤ 3 * Z.of_nat (length l).
Proof.
  induction l as [|x l IH]; [done|].
  rewrite fmap_cons, length_cons. unfold Zsum in *. simpl foldr.
  pose proof (WEIGHT_bounds (sev x)). lia.
Qed.

Lemma Zsum_weights_zero {A : Type} (sev : A → Severity) (l : list A) :
  Zsum ((fun x => WEIGHT (sev x)) <$> l) = 0 ↔ Forall (fun x => sev x = normal) l.
Proof.
  induction l as [|x l IH]; [by split; [constructor|]|].
  rewrite fmap_cons, Forall_cons, <- IH, <- WEIGHT_zero.
  pose proof (WEIGHT_bounds (sev x)).
  pose proof (Zsum_weights_bounds sev l).
  unfold Zsum in *. simpl foldr. lia.
Qed.

Lemma length_found look keys : (length (found look keys) ≤ length keys)%nat.
Proof.
  induction keys as [|k keys IH]; [done|].
  rewrite found_cons. destruct (look k); simpl; lia.
Qed.

Lemma length_resolved_values run_row c :
  (length (resolved_values run_row c)
   ≤ length (get_metrics c) + length (get_indicators c))%nat.
Proof.
  rewrite resolved_values_found, length_app.
  pose proof (length_found (metric_lookup run_row) (get_metrics c)).
  pose proof (length_found (indicator_lookup run_row) (get_indicators c)).
  lia.
Qed.

Lemma cluster_total_bounds run_row thr_map g c :
  0 ≤ cluster_total run_row thr_map g c
    ≤ 3 * Z.of_nat (length (resolved_values run_row c)).
Proof. apply Zsum_weights_bounds. Qed.

(** Without "global", either no cluster has a resolved value or one has. *)
Lemma unresolved_or_resolved run_row (cs : list (string * ClusterDef)) :
  (∀ entry, entry ∈ cs → resolved_values run_row entry.2 = [])
  ∨ (∃ entry, entry ∈ cs ∧ resolved_values run_row entry.2 ≠ []).
Proof.
  induction cs as [|e cs [IH|(entry & Hin & Hres)]].
  - left. intros entry Hin. by apply elem_of_nil in Hin.
  - destruct (resolved_values run_row e.2) as [|kz kzs] eqn:He.
    + left. intros entry [->|Hin]%elem_of_cons; [done|by apply IH].
    + right. exists e. split; [by left|]. by rewrite He.
  - right. exists entry. split; [by right|done].
Qed.

Lemma named_totals_unresolved run_row thr_map g k cs :
  (∀ entry, entry ∈ cs → resolved_values run_row entry.2 = []) →
  Zsum (named_totals run_row thr_map g k cs) = 0.
Proof.
  induction cs as [|e cs IH]; intros Hall; [done|].
  rewrite named_totals_cons, IH by (intros entry Hin; apply Hall; by right).
  unfold cluster_total. rewrite (Hall e) by left.
  by destruct (decide (e.1 = k)).
Qed.

Lemma cluster_records_unresolved run_row thr_map g cs :
  (∀ entry, entry ∈ cs → resolved_values run_row entry.2 = []) →
  concat (cluster_records run_row thr_map g <$> cs) = [].
Proof.
  induction cs as [|e cs IH]; intros Hall; [done|].
  rewrite fmap_cons, concat_cons, IH by (intros entry Hin; apply Hall; by right).
  unfold cluster_records. by rewrite (Hall e) by left.
Qed.

(** Whatever the threshold map, a returned result has the shape that
    [cluster_scores_ok] gives; without "global" it is returned only when
    nothing resolves, and then any thresholds describe it. *)
Lemma cluster_scores_Ok_inv run_row cluster_map thr_map scores labels records :
  cluster_scores run_row cluster_map thr_map = Ok (scores, labels, records) →
  ∃ g,
    labels = score_label <$> scores
    ∧ records = concat (cluster_records run_row thr_map g <$> clusters cluster_map)
    ∧ (∀ k, scores !! k
            = if decide (k ∈ (clusters cluster_map).*1)
              then Some (Zsum (named_totals run_row thr_map g k (clusters cluster_map)))
              else None)
    ∧ (thr_map !! "global" = Some g
       ∨ ∀ entry, entry ∈ clusters cluster_map →
                  resolved_values run_row entry.2 = []).
Proof.
  intros Hrun. destruct (thr_map !! "global") as [g|] eqn:Hg.
  - exists g.
    destruct (cluster_scores_ok run_row thr_map g Hg cluster_map)
      as (scores' & Hrun' & Hsc).
    rewrite Hrun in Hrun'. injection Hrun' as -> -> ->.
    by repeat split; [..|left].
  - destruct (unresolved_or_resolved run_row (clusters cluster_map))
      as [Hall|(entry & Hin & Hres)].
    + exists (mkThresholds 0 0 0).
      rewrite (missing_global_unused _ _ _ Hg Hall) in Hrun.
      injection Hrun as <- <- <-. split; [done|]. split.
      { by rewrite cluster_records_unresolved. }
      split; [|by right].
      intros k. rewrite init_scores_lookup.
      by rewrite named_totals_unresolved.
    + destruct entry as [cname c]. simpl in Hres.
      destruct (resolved_values run_row c) as [|[key z] kzs] eqn:Hc; [done|].
      unfold cluster_scores in Hrun.
      rewrite (foldM_cluster_step_no_global run_row thr_map Hg _ _ (cname, c))
        in Hrun; [done|done|].
      simpl. by rewrite Hc.
Qed.

(** The score and the label of one cluster of a returned result. *)
Lemma cluster_scores_Ok_cluster run_row cluster_map thr_map scores labels records
    cname c :
  cluster_scores run_row cluster_map thr_map = Ok (scores, labels, records) →
  NoDup (clusters cluster_map).*1 →
  (cname, c) ∈ clusters cluster_map →
  ∃ g,
    scores !! cname = Some (cluster_total run_row thr_map g c)
    ∧ labels !! cname = Some (score_label (cluster_total run_row thr_map g c))
    ∧ (thr_map !! "global" = Some g ∨ resolved_values run_row c = []).
Proof.
  intros Hrun Hnd Hin.
  destruct (cluster_scores_Ok_inv _ _ _ _ _ _ Hrun) as (g & -> & _ & Hsc & Hg).
  exists g.
  assert (scores !! cname = Some (cluster_total run_row thr_map g c)) as Hs.
  { rewrite Hsc, decide_True by (by apply (list_elem_of_fmap_2 fst _ (cname, c))).
    by rewrite (named_totals_unique run_row thr_map g _ (cname, c)). }
  split; [done|]. split; [by rewrite lookup_fmap, Hs|].
  destruct Hg as [Hg|Hall]; [by left|right]. by apply (Hall (cname, c)).
Qed.

(** X6: in every returned result the score of a cluster lies between 0 and
    three times the number of its resolved values, which is at most the
    number of its configured metrics and indicators. *)
Theorem cluster_score_bounds (run_row : RunRow) (cluster_map : ClusterMap)
    (thr_map : gmap string Thresholds) scores labels records
    (cname : string) (c : ClusterDef) (s : Z) :
  cluster_scores run_row cluster_map thr_map = Ok (scores, labels, records) →
  NoDup (clusters cluster_map).*1 →
  (cname, c) ∈ clusters cluster_map →
  scores !! cname = Some s →
  0 ≤ s ≤ 3 * Z.of_nat (length (resolved_values run_row c))
  ∧ (length (resolved_values run_row c)
     ≤ length (get_metrics c) + length (get_indicators c))%nat.
Proof.
  intros Hrun Hnd Hin Hs.
  destruct (cluster_scores_Ok_cluster _ _ _ _ _ _ _ _ Hrun Hnd Hin)
    as (g & Hs' & _ & _).
  rewrite Hs in Hs'. injection Hs' as ->.
  split; [apply cluster_total_bounds|apply length_resolved_values].
Qed.

Lemma cluster_score_bounds_witness :
  0 ≤ 5 ≤ 3 * Z.of_nat (length (resolved_values run_row_AB
                                   {| c_metrics := Some ["A"; "B"];
                                      c_indicators := None |}))
  ∧ (length (resolved_values run_row_AB
               {| c_metrics := Some ["A"; "B"]; c_indicators := None |})
     ≤ length (get_metrics {| c_metrics := Some ["A"; "B"]; c_indicators := None |})
       + length (get_indicators
                   {| c_metrics := Some ["A"; "B"]; c_indicators := None |}))%nat.
Proof.
  apply (cluster_score_bounds run_row_AB cluster_map_C thr_map_global
           {["C" := 5]} {["C" := label_moderate]}
           [symptom_record "A" 2.5 moderate "C"; symptom_record "B" 3.5 severe "C"]
           "C").
  - vm_compute. reflexivity.
  - apply (bool_decide_unpack _). vm_compute. exact I.
  - by left.
  - reflexivity.
Defined.

(** X7: in every returned result the scores and the labels have exactly
    the configured cluster names as keys, whether or not anything resolved
    for a cluster. *)
Theorem cluster_scores_keys (run_row : RunRow) (cluster_map : ClusterMap)
    (thr_map : gmap string Thresholds) scores labels records (k : string) :
  cluster_scores run_row cluster_map thr_map = Ok (scores, labels, records) →
  (is_Some (scores !! k) ↔ k ∈ (clusters cluster_map).*1)
  ∧ (is_Some (labels !! k) ↔ k ∈ (clusters cluster_map).*1).
Proof.
  intros Hrun.
  destruct (cluster_scores_Ok_inv _ _ _ _ _ _ Hrun) as (g & -> & _ & Hsc & _).
  rewrite lookup_fmap, fmap_is_Some, Hsc.
  destruct (decide (k ∈ (clusters cluster_map).*1)) as [Hin|Hnin].
  - by split; split.
  - split; split; (done || by intros [? ?]).
Qed.

Lemma cluster_scores_keys_witness :
  (is_Some (({["C" := 2; "D" := 0]} : gmap string Z) !! "D")
   ↔ "D" ∈ (clusters cluster_map_CD).*1)
  ∧ (is_Some (({["C" := label_weak; "D" := label_none]} : gmap string Label) !! "D")
     ↔ "D" ∈ (clusters cluster_map_CD).*1).
Proof.
  apply (cluster_scores_keys run_row_local cluster_map_CD thr_map_global
           {["C" := 2; "D" := 0]} {["C" := label_weak; "D" := label_none]}
           [symptom_record "A" 2.5 moderate "C"; symptom_record "B" 0.5 normal "C"]).
  vm_compute. reflexivity.
Defined.

Lemma score_label_none_iff (s : Z) : score_label s = label_none ↔ s < 1.
Proof. destruct (score_label_cases s) as [[? ->]|[[? ->]|[[? ->]|[? ->]]]]; split; (done || lia). Qed.

Lemma score_label_strong_iff (s : Z) : score_label s = label_strong ↔ 6 ≤ s.
Proof. destruct (score_label_cases s) as [[? ->]|[[? ->]|[[? ->]|[? ->]]]]; split; (done || lia). Qed.

(** X8: with "global" configured, a cluster is labelled none exactly when
    every one of its resolved values is classified normal (in particular
    when it has none); one value that is not normal lifts the label. *)
Theorem label_none_iff_all_normal (run_row : RunRow) (cluster_map : ClusterMap)
    (thr_map : gmap string Thresholds) (g : Thresholds) scores labels records
    (cname : string) (c : ClusterDef) :
  thr_map !! "global" = Some g →
  cluster_scores run_row cluster_map thr_map = Ok (scores, labels, records) →
  NoDup (clusters cluster_map).*1 →
  (cname, c) ∈ clusters cluster_map →
  labels !! cname = Some label_none
  ↔ Forall (fun kz => classify_severity kz.2 (default g (thr_map !! kz.1)) = normal)
           (resolved_values run_row c).
Proof.
  intros Hg Hrun Hnd Hin.
  destruct (cluster_scores_ok run_row thr_map g Hg cluster_map) as (scores' & Hrun' & Hsc).
  rewrite Hrun in Hrun'. injection Hrun' as -> -> _.
  rewrite lookup_fmap, Hsc, decide_True
    by (by apply (list_elem_of_fmap_2 fst _ (cname, c))).
  rewrite (named_totals_unique run_row thr_map g _ (cname, c)) by done.
  simpl. unfold cluster_total.
  rewrite <- (Zsum_weights_zero (symptom_severity thr_map g)).
  pose proof (Zsum_weights_bounds (symptom_severity thr_map g)
                (resolved_values run_row c)) as Hb.
  split.
  - intros [= Hl%score_label_none_iff]. lia.
  - intros Hz. f_equal. apply score_label_none_iff. lia.
Qed.

Lemma label_none_iff_all_normal_witness :
  ({["C" := label_weak; "D" := label_none]} : gmap string Label) !! "D"
  = Some label_none
  ↔ Forall (fun kz => classify_severity kz.2
                        (default thr_123 (thr_map_global !! kz.1)) = normal)
           (resolved_values run_row_local
              {| c_metrics := Some ["E"]; c_indicators := Some ["q"] |}).
Proof.
  apply (label_none_iff_all_normal run_row_local cluster_map_CD thr_map_global thr_123
           {["C" := 2; "D" := 0]} {["C" := label_weak; "D" := label_none]}
           [symptom_record "A" 2.5 moderate "C"; symptom_record "B" 0.5 normal "C"]).
  - reflexivity.
  - vm_compute. reflexivity.
  - apply (bool_decide_unpack _). vm_compute. exact I.
  - right. by left.
Defined.

(** X9: a cluster is never labelled strong on fewer than two resolved
    values: one value weighs at most 3 and strong needs a score of 6. *)
Theorem label_strong_needs_two_values (run_row : RunRow) (cluster_map : ClusterMap)
    (thr_map : gmap string Thresholds) scores labels records
    (cname : string) (c : ClusterDef) :
  cluster_scores run_row cluster_map thr_map = Ok (scores, labels, records) →
  NoDup (clusters cluster_map).*1 →
  (cname, c) ∈ clusters cluster_map →
  labels !! cname = Some label_strong →
  (2 ≤ length (resolved_values run_row c))%nat.
Proof.
  intros Hrun Hnd Hin Hl.
  destruct (cluster_scores_Ok_cluster _ _ _ _ _ _ _ _ Hrun Hnd Hin)
    as (g & _ & Hl' & _).
  rewrite Hl in Hl'. injection Hl' as Hl'. symmetry in Hl'.
  apply score_label_strong_iff in Hl'.
  pose proof (cluster_total_bounds run_row thr_map g c). lia.
Qed.

Lemma label_strong_needs_two_values_witness :
  (2 ≤ length (resolved_values (<["z_A" := Some 3.5%float]> run_row_AB)
                 {| c_metrics := Some ["A"; "B"]; c_indicators := None |}))%nat.
Proof.
  apply (label_strong_needs_two_values (<["z_A" := Some 3.5%float]> run_row_AB)
           cluster_map_C thr_map_global
           {["C" := 6]} {["C" := label_strong]}
           [symptom_record "A" 3.5 severe "C"; symptom_record "B" 3.5 severe "C"]
           "C").
  - vm_compute. reflexivity.
  - apply (bool_decide_unpack _). vm_compute. exact I.
  - by left.
  - reflexivity.
Defined.

(* --------------------------------------------------------------------- *)
(* cluster_scores: what the row and the configuration can and cannot do  *)
(* --------------------------------------------------------------------- *)

(** X10: a first candidate key that is present and holds None hides the
    second: the metric is skipped (no score, no record) even when
    m + "_z_local" holds a value. *)
Theorem none_under_first_key_hides_second (run_row : RunRow)
    (cluster_map : ClusterMap) (thr_map : gmap string Thresholds)
    (m : string) (z : float) :
  run_row !! ("z_" +:+ m) = Some None →
  run_row !! (m +:+ "_z_local") = Some (Some z) →
  metric_lookup run_row m = None
  ∧ (∀ cname st, metric_step run_row thr_map cname st m = Ok st)
  ∧ cluster_scores run_row (without_metric m cluster_map) thr_map
    = cluster_scores run_row cluster_map thr_map.
Proof.
  intros Hz _.
  assert (metric_lookup run_row m = None) as Hlook.
  { unfold metric_lookup, dict_get. by rewrite Hz. }
  assert (∀ cname st, metric_step run_row thr_map cname st m = Ok st) as Hskip.
  { intros cname st. unfold metric_step. by rewrite Hlook. }
  split; [done|]. split; [done|]. by apply cluster_scores_without_metric.
Qed.

Lemma none_under_first_key_hides_second_witness :
  metric_lookup run_row_none "B" = None
  ∧ (∀ cname st, metric_step run_row_none thr_map_global cname st "B" = Ok st)
  ∧ cluster_scores run_row_none (without_metric "B" cluster_map_C) thr_map_global
    = cluster_scores run_row_none cluster_map_C thr_map_global.
Proof.
  apply (none_under_first_key_hides_second run_row_none cluster_map_C
           thr_map_global "B" 0.5%float); reflexivity.
Defined.

(** X11: a threshold map without "global" goes unnoticed on a run in which
    nothing resolves: the call returns score 0 and label none for every
    cluster, and no record. *)
Theorem missing_global_unnoticed (run_row : RunRow) (cluster_map : ClusterMap)
    (thr_map : gmap string Thresholds) :
  thr_map !! "global" = None →
  (∀ entry, entry ∈ clusters cluster_map → resolved_values run_row entry.2 = []) →
  ∃ scores labels,
    cluster_scores run_row cluster_map thr_map = Ok (scores, labels, [])
    ∧ ∀ k, k ∈ (clusters cluster_map).*1 →
           scores !! k = Some 0 ∧ labels !! k = Some label_none.
Proof.
  intros Hg Hall. eexists _, _. split; [by apply missing_global_unused|].
  intros k Hk. rewrite lookup_fmap, init_scores_lookup, decide_True by done.
  done.
Qed.

Lemma missing_global_unnoticed_witness :
  ∃ scores labels,
    cluster_scores run_row_AB cluster_map_D ∅ = Ok (scores, labels, [])
    ∧ ∀ k, k ∈ (clusters cluster_map_D).*1 →
           scores !! k = Some 0 ∧ labels !! k = Some label_none.
Proof.
  apply missing_global_unnoticed; [reflexivity|].
  intros entry [->|Hin%elem_of_nil]%elem_of_cons; [reflexivity|done].
Defined.

Lemma elem_of_concat {A : Type} (x : A) (ls : list (list A)) :
  x ∈ concat ls ↔ ∃ l, x ∈ l ∧ l ∈ ls.
Proof.
  induction ls as [|l0 ls IH]; simpl.
  - split; [by intros ?%elem_of_nil|by intros (l & _ & ?%elem_of_nil)].
  - rewrite elem_of_app, IH. split.
    + intros [Hx|(l & Hx & Hl)]; [exists l0; split; [done|by left]|].
      exists l. split; [done|by right].
    + intros (l & Hx & [->|Hl]%elem_of_cons); [by left|right; by exists l].
Qed.

Lemma elem_of_consulted_keys cluster_map entry k :
  entry ∈ clusters cluster_map →
  k ∈ concat ((fun m => ["z_" +:+ m; m +:+ "_z_local"]) <$> get_metrics entry.2)
      ++ get_indicators entry.2 →
  k ∈ consulted_keys cluster_map.
Proof.
  intros Hin Hk. unfold consulted_keys. apply elem_of_concat.
  eexists. split; [exact Hk|].
  by apply (list_elem_of_fmap_2
              (fun entry =>
                 concat ((fun m => ["z_" +:+ m; m +:+ "_z_local"])
                           <$> get_metrics entry.2)
                 ++ get_indicators entry.2)).
Qed.

Lemma cluster_step_agree run_row run_row' thr_map cluster_map entry st :
  (∀ k, k ∈ consulted_keys cluster_map → run_row !! k = run_row' !! k) →
  entry ∈ clusters cluster_map →
  cluster_step run_row thr_map st entry = cluster_step run_row' thr_map st entry.
Proof.
  intros Hagree Hin. unfold cluster_step.
  rewrite (foldM_ext_in (metric_step run_row thr_map entry.1)
             (metric_step run_row' thr_map entry.1)).
  - destruct (foldM _ st (get_metrics entry.2)) as [st1|e]; [|done].
    rewrite !bind_Ok. apply foldM_ext_in.
    intros st' ind Hind. unfold indicator_step, indicator_lookup, dict_get.
    rewrite (Hagree ind); [done|].
    apply (elem_of_consulted_keys _ entry); [done|].
    apply elem_of_app. by right.
  - intros st' m Hm. unfold metric_step, metric_lookup, dict_get.
    rewrite (Hagree ("z_" +:+ m)), (Hagree (m +:+ "_z_local")); [done|..].
    + apply (elem_of_consulted_keys _ entry); [done|].
      apply elem_of_app. left. apply elem_of_concat.
      exists ["z_" +:+ m; m +:+ "_z_local"]. split; [by right; left|].
      by apply (list_elem_of_fmap_2 (fun m => ["z_" +:+ m; m +:+ "_z_local"])).
    + apply (elem_of_consulted_keys _ entry); [done|].
      apply elem_of_app. left. apply elem_of_concat.
      exists ["z_" +:+ m; m +:+ "_z_local"]. split; [by left|].
      by apply (list_elem_of_fmap_2 (fun m => ["z_" +:+ m; m +:+ "_z_local"])).
Qed.

(** X12: cluster_scores reads a run's row only under "z_" + m and
    m + "_z_local" for the configured metrics m and under the configured
    indicator names: two rows that agree on these keys give the same
    result, exception included, whatever else they hold (the run id, the
    columns no cluster refers to). *)
Theorem cluster_scores_reads_consulted_keys (run_row run_row' : RunRow)
    (cluster_map : ClusterMap) (thr_map : gmap string Thresholds) :
  (∀ k, k ∈ consulted_keys cluster_map → run_row !! k = run_row' !! k) →
  cluster_scores run_row cluster_map thr_map
  = cluster_scores run_row' cluster_map thr_map.
Proof.
  intros Hagree. unfold cluster_scores.
  rewrite (foldM_ext_in (cluster_step run_row thr_map)
             (cluster_step run_row' thr_map)); [done|].
  intros st entry Hin. by apply (cluster_step_agree _ _ _ cluster_map).
Qed.

Lemma cluster_scores_reads_consulted_keys_witness :
  cluster_scores run_row_AB cluster_map_CD thr_map_global
  = cluster_scores run_row_7_note cluster_map_CD thr_map_global.
Proof.
  apply cluster_scores_reads_consulted_keys.
  intros k Hk. vm_compute in Hk.
  repeat (apply elem_of_cons in Hk as [->|Hk]; [reflexivity|]).
  by apply elem_of_nil in Hk.
Defined.

Lemma named_totals_app run_row thr_map g k cs1 cs2 :
  Zsum (named_totals run_row thr_map g k (cs1 ++ cs2))
  = Zsum (named_totals run_row thr_map g k cs1)
    + Zsum (named_totals run_row thr_map g k cs2).
Proof. unfold named_totals. by rewrite fmap_app, Zsum_app. Qed.

(** X13: clusters do not interact: with "global" configured, the result
    over a cluster map is made of the results over its parts, the scores
    and labels being the unions and the records the concatenation. *)
Theorem cluster_scores_app (run_row : RunRow) (cs1 cs2 : list (string * ClusterDef))
    (thr_map : gmap string Thresholds) (g : Thresholds) :
  thr_map !! "global" = Some g →
  NoDup (cs1 ++ cs2).*1 →
  ∃ scores1 labels1 records1 scores2 labels2 records2,
    cluster_scores run_row {| clusters := cs1 |} thr_map
    = Ok (scores1, labels1, records1)
    ∧ cluster_scores run_row {| clusters := cs2 |} thr_map
      = Ok (scores2, labels2, records2)
    ∧ cluster_scores run_row {| clusters := cs1 ++ cs2 |} thr_map
      = Ok (scores1 ∪ scores2, labels1 ∪ labels2, records1 ++ records2).
Proof.
  intros Hg Hnd.
  destruct (cluster_scores_ok run_row thr_map g Hg {| clusters := cs1 |})
    as (scores1 & Hrun1 & Hsc1).
  destruct (cluster_scores_ok run_row thr_map g Hg {| clusters := cs2 |})
    as (scores2 & Hrun2 & Hsc2).
  destruct (cluster_scores_ok run_row thr_map g Hg {| clusters := cs1 ++ cs2 |})
    as (scores & Hrun & Hsc).
  simpl in *. eexists _, _, _, _, _, _. split; [exact Hrun1|]. split; [exact Hrun2|].
  rewrite Hrun. rewrite fmap_app in Hnd. apply NoDup_app in Hnd as (_ & Hdisj & _).
  assert (scores = scores1 ∪ scores2) as ->.
  { apply map_eq. intros k.
    rewrite lookup_union, Hsc, Hsc1, Hsc2, fmap_app, named_totals_app.
    destruct (decide (k ∈ cs1.*1)) as [H1|H1], (decide (k ∈ cs2.*1)) as [H2|H2].
    - by destruct (Hdisj k).
    - rewrite decide_True by (apply elem_of_app; by left).
      rewrite (named_totals_other run_row thr_map g k cs2) by done.
      by rewrite Z.add_0_r.
    - rewrite decide_True by (apply elem_of_app; by right).
      by rewrite (named_totals_other run_row thr_map g k cs1) by done.
    - rewrite decide_False; [done|]. rewrite elem_of_app. by intros [?|?]. }
  by rewrite map_fmap_union, fmap_app, concat_app.
Qed.

Lemma cluster_scores_app_witness :
  ∃ scores1 labels1 records1 scores2 labels2 records2,
    cluster_scores run_row_local {| clusters := clusters cluster_map_C |} thr_map_global
    = Ok (scores1, labels1, records1)
    ∧ cluster_scores run_row_local {| clusters := clusters cluster_map_D |}
        thr_map_global
      = Ok (scores2, labels2, records2)
    ∧ cluster_scores run_row_local
        {| clusters := clusters cluster_map_C ++ clusters cluster_map_D |}
        thr_map_global
      = Ok (scores1 ∪ scores2, labels1 ∪ labels2, records1 ++ records2).
Proof.
  apply (cluster_scores_app run_row_local _ _ thr_map_global thr_123).
  - reflexivity.
  - apply (bool_decide_unpack _). vm_compute. exact I.
Defined.

(* --------------------------------------------------------------------- *)
(* diagnose_runs: the threshold map                                      *)
(* --------------------------------------------------------------------- *)

Lemma alist_lookup_None {V : Type} (k : string) (d : list (string * V)) :
  k ∉ d.*1 → alist_lookup k d = None.
Proof.
  induction d as [|[k' v] d IH]; [done|].
  rewrite fmap_cons, not_elem_of_cons. simpl. intros [Hne Hnin].
  rewrite decide_False by done. by apply IH.
Qed.

Lemma add_thresholds_global thr_cfg thr_map0 thr_map :
  add_thresholds thr_cfg thr_map0 = inr thr_map →
  thr_map !! "global" = thr_map0 !! "global".
Proof.
  revert thr_map0. induction thr_cfg as [|[k v] rest IH]; intros thr_map0; simpl.
  { by intros [= ->]. }
  destruct (decide (k = "global")) as [->|Hne]; [apply IH|].
  destruct (thresholds_of_cfg v) as [t|]; [|done].
  intros Hadd%IH. by rewrite Hadd, lookup_insert_ne.
Qed.

Lemma add_thresholds_lookup thr_cfg thr_map0 thr_map k :
  add_thresholds thr_cfg thr_map0 = inr thr_map →
  NoDup thr_cfg.*1 →
  thr_map !! k
  = if decide (k ≠ "global" ∧ k ∈ thr_cfg.*1)
    then alist_lookup k thr_cfg ≫= thresholds_of_cfg
    else thr_map0 !! k.
Proof.
  revert thr_map0. induction thr_cfg as [|[k0 v] rest IH]; intros thr_map0.
  { simpl. intros [= ->] _. rewrite decide_False; [done|].
    intros [_ Hin]. by apply elem_of_nil in Hin. }
  rewrite fmap_cons. simpl. intros Hadd [Hfresh Hnd]%NoDup_cons.
  destruct (decide (k0 = "global")) as [->|Hne].
  - rewrite (IH _ Hadd Hnd).
    destruct (decide (k ≠ "global" ∧ k ∈ rest.*1)) as [[Hk Hin]|Hno].
    + rewrite decide_True by (split; [done|by right]).
      by rewrite decide_False by done.
    + rewrite decide_False; [done|].
      intros [Hk [->|Hin]%elem_of_cons]; [done|]. by apply Hno.
  - destruct (thresholds_of_cfg v) as [t|] eqn:Hv; [|done].
    rewrite (IH _ Hadd Hnd).
    destruct (decide (k0 = k)) as [<-|Hk0].
    + rewrite decide_False by (by intros [_ ?]).
      rewrite decide_True by (split; [done|by left]).
      rewrite lookup_insert_eq. simpl. by rewrite Hv.
    + rewrite lookup_insert_ne by done.
      destruct (decide (k ≠ "global" ∧ k ∈ rest.*1)) as [[Hk Hin]|Hno].
      * by rewrite decide_True by (split; [done|by right]).
      * rewrite decide_False; [done|].
        intros [Hk [->|Hin]%elem_of_cons]; [done|]. by apply Hno.
Qed.

Lemma build_thr_map_inr thr_cfg thr_map :
  build_thr_map thr_cfg = inr thr_map →
  ∃ v g, alist_lookup "global" thr_cfg = Some v
         ∧ thresholds_of_cfg v = Some g
         ∧ add_thresholds thr_cfg {["global" := g]} = inr thr_map.
Proof.
  unfold build_thr_map.
  destruct (alist_lookup "global" thr_cfg) as [v|]; [|done].
  destruct (thresholds_of_cfg v) as [g|] eqn:Hg; [|done].
  intros Hadd. by exists v, g.
Qed.

(** X14: the threshold map that diagnose_runs builds holds, under every
    key of the thresholds file, the Thresholds made of that key's entry,
    and nothing under any other key. *)
Theorem build_thr_map_lookup (thr_cfg : list (string * gmap string float))
    (thr_map : gmap string Thresholds) (k : string) :
  build_thr_map thr_cfg = inr thr_map →
  NoDup thr_cfg.*1 →
  thr_map !! k = alist_lookup k thr_cfg ≫= thresholds_of_cfg.
Proof.
  intros (v & g & Hv & Hg & Hadd)%build_thr_map_inr Hnd.
  rewrite (add_thresholds_lookup _ _ _ k Hadd Hnd).
  destruct (decide (k ≠ "global" ∧ k ∈ thr_cfg.*1)) as [|Hno]; [done|].
  destruct (decide (k = "global")) as [->|Hk].
  - by rewrite lookup_singleton_eq, Hv.
  - rewrite lookup_singleton_ne by done.
    rewrite alist_lookup_None; [done|]. intros Hin. by apply Hno.
Qed.



(** X16: on a threshold map that diagnose_runs built, cluster_scores
    returns for every row and every cluster map: the "global" entry is
    there, so no KeyError is raised. *)
Theorem cluster_scores_on_built_thr_map (thr_cfg : list (string * gmap string float))
    (thr_map : gmap string Thresholds) (run_row : RunRow) (cluster_map : ClusterMap) :
  build_thr_map thr_cfg = inr thr_map →
  ∃ scores labels records,
    cluster_scores run_row cluster_map thr_map = Ok (scores, labels, records).
Proof.
  intros (v & g & Hv & Hg & Hadd)%build_thr_map_inr.
  assert (thr_map !! "global" = Some g) as Hglobal.
  { by rewrite (add_thresholds_global _ _ _ Hadd), lookup_singleton_eq. }
  destruct (cluster_scores_ok run_row thr_map g Hglobal cluster_map)
    as (scores & Hrun & _).
  by eexists _, _, _.
Qed.

Lemma build_thr_map_lookup_witness :
  (<["A" := mkThresholds 30 20 10]> thr_map_global : gmap string Thresholds) !! "A"
  = alist_lookup "A" thr_cfg_global_A ≫= thresholds_of_cfg.
Proof.
  apply (build_thr_map_lookup thr_cfg_global_A).
  - vm_compute. reflexivity.
  - apply (bool_decide_unpack _). vm_compute. exact I.
Defined.

Lemma cluster_scores_on_built_thr_map_witness :
  ∃ scores labels records,
    cluster_scores run_row_AB cluster_map_CD
      (<["A" := mkThresholds 30 20 10]> thr_map_global)
    = Ok (scores, labels, records).
Proof.
  apply (cluster_scores_on_built_thr_map thr_cfg_global_A).
  vm_compute. reflexivity.
Defined.

(* --------------------------------------------------------------------- *)
(* diagnose_runs: the symptom table and the cause table                  *)
(* --------------------------------------------------------------------- *)

Lemma symptom_row_record row run key z sev cname :
  row !! "run" = Some run →
  symptom_row row (symptom_record key z sev cname)
  = Ok [("run", pyval_of run); ("metric", PyStr key); ("z", PyFloat z);
        ("severity", PyStr (severity_str sev)); ("clusters", PyStr cname)].
Proof. intros Hrun. unfold symptom_row, getitem. by rewrite Hrun. Qed.

Lemma symptom_row_no_run row r :
  row !! "run" = None → symptom_row row r = Raise (KeyError "run").
Proof. intros Hrun. unfold symptom_row, getitem. by rewrite Hrun. Qed.

Lemma mapM_fmap_Ok {A B C : Type} (f : B → result C) (h : A → B) (h' : A → C)
    (l : list A) :
  (∀ x, f (h x) = Ok (h' x)) → mapM f (h <$> l) = Ok (h' <$> l).
Proof.
  intros Hf. induction l as [|x l IH]; [done|].
  rewrite !fmap_cons. simpl. by rewrite Hf, bind_Ok, IH.
Qed.

Lemma mapM_raise {A B : Type} (f : A → result B) (e : exn) (l : list A) :
  (∀ x, f x = Raise e) → mapM f l = match l with [] => Ok [] | _ :: _ => Raise e end.
Proof. intros Hf. destruct l as [|x l]; [done|]. simpl. by rewrite Hf. Qed.

Lemma cluster_records_all_resolved run_row thr_map g cs :
  concat (cluster_records run_row thr_map g <$> cs)
  = (fun ckz => symptom_record ckz.2.1 ckz.2.2
                  (symptom_severity thr_map g ckz.2) ckz.1)
      <$> all_resolved run_row cs.
Proof.
  unfold all_resolved. induction cs as [|e cs IH]; [done|].
  rewrite !fmap_cons, !concat_cons, fmap_app, IH. f_equal.
  unfold cluster_records. by rewrite <- list_fmap_compose.
Qed.

(** The symptom rows of a run whose row has a run id. *)
Lemma symptom_rows_of_records row run thr_map g cs :
  row !! "run" = Some run →
  mapM (symptom_row row) (concat (cluster_records row thr_map g <$> cs))
  = Ok (expected_symptom_row run thr_map g <$> all_resolved row cs).
Proof.
  intros Hrun. rewrite cluster_records_all_resolved.
  apply mapM_fmap_Ok. intros ckz. by apply symptom_row_record.
Qed.

(* ---- the cause row ---- *)

Lemma alist_lookup_set_eq {V : Type} (k : string) (v : V) (d : list (string * V)) :
  alist_lookup k (alist_set k v d) = Some v.
Proof.
  induction d as [|[k' v'] d IH]; simpl.
  - by rewrite decide_True.
  - destruct (decide (k' = k)) as [->|Hne]; simpl.
    + by rewrite decide_True.
    + by rewrite decide_False.
Qed.

Lemma alist_lookup_set_ne {V : Type} (k k' : string) (v : V) (d : list (string * V)) :
  k ≠ k' → alist_lookup k (alist_set k' v d) = alist_lookup k d.
Proof.
  intros Hne. induction d as [|[k0 v0] d IH]; simpl.
  - by rewrite decide_False.
  - destruct (decide (k0 = k')) as [->|Hne0]; simpl.
    + by rewrite !decide_False.
    + by destruct (decide (k0 = k)).
Qed.

Lemma alist_set_fresh {V : Type} (k : string) (v : V) (d : list (string * V)) :
  k ∉ d.*1 → alist_set k v d = d ++ [(k, v)].
Proof.
  induction d as [|[k' v'] d IH]; [done|].
  rewrite fmap_cons, not_elem_of_cons. simpl. intros [Hne Hnin].
  rewrite decide_False by done. by rewrite IH.
Qed.

Lemma label_key_ne_run (n : string) : "run" ≠ "label_" +:+ n.
Proof. done. Qed.

(** The loop body with the two lookups done. *)
Definition cause_step_pure (scores : gmap string Z) (labels : gmap string Label)
    (d : list (string * cell)) (n : string) : list (string * cell) :=
  alist_set ("label_" +:+ n)
    (CellStr (label_str (default label_none (labels !! n))))
    (alist_set n (CellInt (default 0 (scores !! n))) d).

Lemma cause_step_Ok scores labels d n :
  is_Some (scores !! n) → is_Some (labels !! n) →
  cause_step scores labels d n = Ok (cause_step_pure scores labels d n).
Proof.
  intros [s Hs] [l Hl]. unfold cause_step, cause_step_pure, getitem.
  by rewrite Hs, Hl.
Qed.

Lemma foldM_cause_step scores labels names d :
  (∀ n, n ∈ names → is_Some (scores !! n) ∧ is_Some (labels !! n)) →
  foldM (cause_step scores labels) d names
  = Ok (foldl (cause_step_pure scores labels) d names).
Proof.
  revert d. induction names as [|n names IH]; intros d Hdom; [done|].
  destruct (Hdom n) as [Hs Hl]; [by left|].
  rewrite foldM_cons, (cause_step_Ok _ _ _ _ Hs Hl), bind_Ok. simpl foldl.
  apply IH. intros n' Hn'. apply Hdom. by right.
Qed.

(** A key that no later cluster writes keeps its value. *)
Lemma cause_rows_keep scores labels names d k :
  k ∉ names → (∀ n, n ∈ names → k ≠ "label_" +:+ n) →
  alist_lookup k (foldl (cause_step_pure scores labels) d names)
  = alist_lookup k d.
Proof.
  revert d. induction names as [|n names IH]; intros d Hk Hlab; [done|].
  apply not_elem_of_cons in Hk as [Hne Hk]. simpl.
  rewrite IH by (done || intros n' Hn'; apply Hlab; by right).
  unfold cause_step_pure.
  rewrite alist_lookup_set_ne by (apply Hlab; by left).
  by rewrite alist_lookup_set_ne.
Qed.

(** The score of a cluster stays under its name unless a label column of
    that name is written. *)
Lemma cause_rows_score scores labels names d k :
  NoDup names → k ∈ names → (∀ n, n ∈ names → k ≠ "label_" +:+ n) →
  alist_lookup k (foldl (cause_step_pure scores labels) d names)
  = Some (CellInt (default 0 (scores !! k))).
Proof.
  revert d. induction names as [|n names IH]; intros d Hnd Hk Hlab.
  { by apply elem_of_nil in Hk. }
  apply NoDup_cons in Hnd as [Hfresh Hnd]. simpl.
  destruct (decide (k = n)) as [->|Hne].
  - rewrite cause_rows_keep by (done || intros n' Hn'; apply Hlab; by right).
    unfold cause_step_pure.
    rewrite alist_lookup_set_ne by (apply Hlab; by left).
    by rewrite alist_lookup_set_eq.
  - apply elem_of_cons in Hk as [->|Hk]; [done|].
    apply IH; [done|done|]. intros n' Hn'. apply Hlab. by right.
Qed.

Lemma cause_columns_cons n names :
  cause_columns (n :: names) = n :: ("label_" +:+ n) :: cause_columns names.
Proof. reflexivity. Qed.

Lemma elem_of_cause_columns n names : n ∈ names → n ∈ cause_columns names.
Proof.
  induction names as [|n0 names IH]; [done|].
  rewrite cause_columns_cons.
  intros [->|Hin]%elem_of_cons; [by left|]. right. right. by apply IH.
Qed.

Lemma NoDup_cause_columns names : NoDup (cause_columns names) → NoDup names.
Proof.
  induction names as [|n names IH]; [constructor|].
  rewrite cause_columns_cons.
  intros [Hn [_ Hnd]%NoDup_cons]%NoDup_cons. apply NoDup_cons. split; [|by apply IH].
  intros Hin. apply Hn. right. by apply elem_of_cause_columns.
Qed.

(** When no two columns collide, every assignment of the loop adds a
    column at the end. *)
Lemma cause_rows_fresh scores labels names d :
  NoDup (d.*1 ++ cause_columns names) →
  foldl (cause_step_pure scores labels) d names
  = d ++ concat ((fun n =>
                    [(n, CellInt (default 0 (scores !! n)));
                     ("label_" +:+ n,
                      CellStr (label_str (default label_none (labels !! n))))])
                   <$> names).
Proof.
  revert d. induction names as [|n names IH]; intros d Hnd.
  { simpl. by rewrite app_nil_r. }
  rewrite cause_columns_cons in Hnd. simpl foldl. unfold cause_step_pure at 2.
  assert (n ∉ d.*1) as Hn.
  { intros Hin. apply NoDup_app in Hnd as (_ & Hdisj & _).
    apply (Hdisj n Hin). by left. }
  rewrite (alist_set_fresh n) by done.
  assert ("label_" +:+ n ∉ (d ++ [(n, CellInt (default 0 (scores !! n)))]).*1) as Hl.
  { rewrite fmap_app. simpl. intros [Hin|Hin]%elem_of_app.
    - apply NoDup_app in Hnd as (_ & Hdisj & _).
      apply (Hdisj _ Hin). right. by left.
    - apply list_elem_of_singleton in Hin.
      apply NoDup_app in Hnd as (_ & _ & Hcols).
      apply NoDup_cons in Hcols as [Hfresh _]. apply Hfresh, elem_of_cons.
      left. symmetry. exact Hin. }
  rewrite (alist_set_fresh ("label_" +:+ n)) by done.
  rewrite IH.
  - rewrite fmap_cons, concat_cons, <- !app_assoc. reflexivity.
  - rewrite !fmap_app. simpl. rewrite <- !app_assoc. simpl. exact Hnd.
Qed.

(** The scores and labels that cluster_scores hands to the cause loop. *)
Definition scores_of (row : RunRow) (cluster_map : ClusterMap)
    (thr_map : gmap string Thresholds) : gmap string Z :=
  match cluster_scores row cluster_map thr_map with
  | Ok res => res.1.1
  | Raise _ => ∅
  end.

(** The cause row of a run, collisions or not. *)
Definition cause_row_written (row : RunRow) (cluster_map : ClusterMap)
    (thr_map : gmap string Thresholds) : list (string * cell) :=
  foldl (cause_step_pure (scores_of row cluster_map thr_map)
           (score_label <$> scores_of row cluster_map thr_map))
        [("run", cell_of (row_run row))] (clusters cluster_map).*1.

Lemma diagnose_run_step_ok cluster_map thr_map g tables row :
  thr_map !! "global" = Some g →
  is_Some (row !! "run") →
  diagnose_run_step cluster_map thr_map tables row
  = Ok (tables.1 ++ (expected_symptom_row (row_run row) thr_map g
                       <$> all_resolved row (clusters cluster_map)),
        tables.2 ++ [cause_row_written row cluster_map thr_map]).
Proof.
  intros Hg [run Hrun]. unfold diagnose_run_step, cause_row_written, scores_of.
  destruct (cluster_scores_ok row thr_map g Hg cluster_map) as (scores & Hres & Hsc).
  rewrite Hres, bind_Ok. simpl.
  rewrite (symptom_rows_of_records _ run) by done. rewrite bind_Ok.
  unfold cause_row_of, getitem. rewrite Hrun, bind_Ok.
  rewrite foldM_cause_step.
  - rewrite bind_Ok. unfold row_run. by rewrite Hrun.
  - intros n Hn. rewrite lookup_fmap, Hsc, decide_True by done. by split; eexists.
Qed.

Lemma diagnose_run_step_no_run cluster_map thr_map g tables row :
  thr_map !! "global" = Some g →
  row !! "run" = None →
  diagnose_run_step cluster_map thr_map tables row = Raise (KeyError "run").
Proof.
  intros Hg Hrun. unfold diagnose_run_step.
  destruct (cluster_scores_ok row thr_map g Hg cluster_map) as (scores & Hres & _).
  rewrite Hres, bind_Ok. simpl.
  rewrite (mapM_raise _ (KeyError "run")) by (intros r; by apply symptom_row_no_run).
  destruct (concat _); [|done].
  rewrite bind_Ok. unfold cause_row_of, getitem. by rewrite Hrun.
Qed.

Lemma diagnose_tables_from cluster_map thr_map g wide tables :
  thr_map !! "global" = Some g →
  (∀ row, row ∈ wide → is_Some (row !! "run")) →
  foldM (diagnose_run_step cluster_map thr_map) tables wide
  = Ok (tables.1
        ++ concat ((fun row => expected_symptom_row (row_run row) thr_map g
                                 <$> all_resolved row (clusters cluster_map))
                     <$> wide),
        tables.2 ++ ((fun row => cause_row_written row cluster_map thr_map) <$> wide)).
Proof.
  intros Hg. revert tables. induction wide as [|row wide IH]; intros tables Hruns.
  { simpl. rewrite !app_nil_r. by destruct tables. }
  rewrite foldM_cons, (diagnose_run_step_ok _ _ g) by (done || apply Hruns; by left).
  rewrite bind_Ok, IH by (intros row' Hin; apply Hruns; by right).
  simpl. by rewrite <- !app_assoc.
Qed.

(** X17: with "global" configured and a run id in every row,
    diagnose_runs completes and the symptom table holds, run after run
    and in the order of the clusters, one row per resolved value with the
    run's id, the configured key, the value, its severity and the
    cluster's name; the cause table has one row per run. *)
Theorem diagnose_tables_symptoms (wide : list RunRow) (cluster_map : ClusterMap)
    (thr_map : gmap string Thresholds) (g : Thresholds) :
  thr_map !! "global" = Some g →
  (∀ row, row ∈ wide → is_Some (row !! "run")) →
  ∃ cause_rows,
    diagnose_tables wide cluster_map thr_map
    = Ok (concat ((fun row => expected_symptom_row (row_run row) thr_map g
                                <$> all_resolved row (clusters cluster_map))
                    <$> wide),
          cause_rows)
    ∧ length cause_rows = length wide.
Proof.
  intros Hg Hruns. unfold diagnose_tables.
  rewrite (diagnose_tables_from _ _ g) by done. simpl.
  eexists. split; [reflexivity|]. by rewrite length_fmap.
Qed.

Lemma diagnose_tables_symptoms_witness :
  ∃ cause_rows,
    diagnose_tables [run_row_7; run_row_7_note] cluster_map_CD thr_map_global
    = Ok (concat ((fun row => expected_symptom_row (row_run row) thr_map_global thr_123
                                <$> all_resolved row (clusters cluster_map_CD))
                    <$> [run_row_7; run_row_7_note]),
          cause_rows)
    ∧ length cause_rows = length [run_row_7; run_row_7_note].
Proof.
  apply diagnose_tables_symptoms; [reflexivity|].
  intros row Hin.
  repeat (apply elem_of_cons in Hin as [->|Hin]; [by eexists|]).
  by apply elem_of_nil in Hin.
Defined.

Lemma scores_of_cluster row cluster_map thr_map g entry :
  thr_map !! "global" = Some g →
  NoDup (clusters cluster_map).*1 →
  entry ∈ clusters cluster_map →
  scores_of row cluster_map thr_map !! entry.1
  = Some (cluster_total row thr_map g entry.2).
Proof.
  intros Hg Hnd Hin. unfold scores_of.
  destruct (cluster_scores_ok row thr_map g Hg cluster_map) as (scores & -> & Hsc).
  simpl. rewrite Hsc, decide_True by (by apply list_elem_of_fmap_2).
  by rewrite named_totals_unique.
Qed.

Lemma cause_row_written_expected row cluster_map thr_map g :
  thr_map !! "global" = Some g →
  NoDup ("run" :: cause_columns (clusters cluster_map).*1) →
  cause_row_written row cluster_map thr_map
  = expected_cause_row row thr_map g (clusters cluster_map).
Proof.
  intros Hg Hcols. unfold cause_row_written, expected_cause_row.
  rewrite cause_rows_fresh by done. simpl. do 2 f_equal.
  assert (NoDup (clusters cluster_map).*1) as Hnd.
  { apply NoDup_cons in Hcols as [_ Hcols]. by apply NoDup_cause_columns. }
  rewrite <- list_fmap_compose. apply list_fmap_ext.
  intros i entry Hentry%list_elem_of_lookup_2. simpl.
  rewrite lookup_fmap.
  by rewrite (scores_of_cluster _ _ _ g entry Hg Hnd Hentry).
Qed.

(** X18: when the column names run, <cluster> and label_<cluster> are
    pairwise distinct, the cause table holds for every run, in this order,
    the run id and then for each cluster its score under its name and its
    label under "label_" + name. *)
Theorem diagnose_tables_causes (wide : list RunRow) (cluster_map : ClusterMap)
    (thr_map : gmap string Thresholds) (g : Thresholds) :
  thr_map !! "global" = Some g →
  (∀ row, row ∈ wide → is_Some (row !! "run")) →
  NoDup ("run" :: cause_columns (clusters cluster_map).*1) →
  ∃ symptom_rows,
    diagnose_tables wide cluster_map thr_map
    = Ok (symptom_rows,
          (fun row => expected_cause_row row thr_map g (clusters cluster_map))
            <$> wide).
Proof.
  intros Hg Hruns Hcols. unfold diagnose_tables.
  rewrite (diagnose_tables_from _ _ g) by done. simpl.
  eexists. do 2 f_equal. apply list_fmap_ext. intros i row _.
  by apply cause_row_written_expected.
Qed.

Lemma diagnose_tables_causes_witness :
  ∃ symptom_rows,
    diagnose_tables [run_row_7; run_row_7_note] cluster_map_CD thr_map_global
    = Ok (symptom_rows,
          (fun row => expected_cause_row row thr_map_global thr_123
                        (clusters cluster_map_CD))
            <$> [run_row_7; run_row_7_note]).
Proof.
  apply diagnose_tables_causes; [reflexivity| |].
  - intros row Hin.
    repeat (apply elem_of_cons in Hin as [->|Hin]; [by eexists|]).
    by apply elem_of_nil in Hin.
  - apply (bool_decide_unpack _). vm_compute. exact I.
Defined.

(** X19: a cluster named "run" takes the run column: in every cause row
    the key 'run' holds that cluster's score and the run id is gone. *)
Theorem cluster_named_run_takes_run_column (wide : list RunRow)
    (cluster_map : ClusterMap) (thr_map : gmap string Thresholds) (g : Thresholds)
    (c : ClusterDef) :
  thr_map !! "global" = Some g →
  (∀ row, row ∈ wide → is_Some (row !! "run")) →
  NoDup (clusters cluster_map).*1 →
  ("run", c) ∈ clusters cluster_map →
  ∃ symptom_rows cause_rows,
    diagnose_tables wide cluster_map thr_map = Ok (symptom_rows, cause_rows)
    ∧ Forall2 (fun row cause_row =>
                 alist_lookup "run" cause_row
                 = Some (CellInt (cluster_total row thr_map g c)))
              wide cause_rows.
Proof.
  intros Hg Hruns Hnd Hin. unfold diagnose_tables.
  rewrite (diagnose_tables_from _ _ g) by done. simpl.
  eexists _, _. split; [reflexivity|].
  apply Forall2_fmap_r, Forall_Forall2_diag, Forall_forall. intros row _.
  unfold compose, cause_row_written.
  rewrite cause_rows_score.
  - by rewrite (scores_of_cluster _ _ _ g ("run", c) Hg Hnd Hin).
  - done.
  - by apply (list_elem_of_fmap_2 fst _ ("run", c)).
  - intros n _. apply label_key_ne_run.
Qed.

Lemma cluster_named_run_takes_run_column_witness :
  ∃ symptom_rows cause_rows,
    diagnose_tables [run_row_7] cluster_map_run thr_map_global
    = Ok (symptom_rows, cause_rows)
    ∧ Forall2 (fun row cause_row =>
                 alist_lookup "run" cause_row
                 = Some (CellInt (cluster_total row thr_map_global thr_123
                                    {| c_metrics := Some ["A"];
                                       c_indicators := None |})))
              [run_row_7] cause_rows.
Proof.
  apply cluster_named_run_takes_run_column; [reflexivity| | |by left].
  - intros row Hin.
    repeat (apply elem_of_cons in Hin as [->|Hin]; [by eexists|]).
    by apply elem_of_nil in Hin.
  - apply (bool_decide_unpack _). vm_compute. exact I.
Defined.

Lemma foldM_diagnose_run_step_no_run cluster_map thr_map g wide tables row :
  thr_map !! "global" = Some g →
  row ∈ wide → row !! "run" = None →
  foldM (diagnose_run_step cluster_map thr_map) tables wide = Raise (KeyError "run").
Proof.
  intros Hg. revert tables. induction wide as [|row0 wide IH]; intros tables Hin Hrun.
  { by apply elem_of_nil in Hin. }
  rewrite foldM_cons. destruct (row0 !! "run") as [run|] eqn:Hrun0.
  - rewrite (diagnose_run_step_ok _ _ g) by (done || by eexists).
    rewrite bind_Ok. apply IH; [|done].
    apply elem_of_cons in Hin as [->|Hin]; [congruence|done].
  - by rewrite (diagnose_run_step_no_run _ _ g).
Qed.

(** X20: with "global" configured, one row without the key 'run' makes
    diagnose_runs raise KeyError('run'), and no table is produced,
    whatever the other rows hold. *)
Theorem diagnose_tables_missing_run (wide : list RunRow) (cluster_map : ClusterMap)
    (thr_map : gmap string Thresholds) (g : Thresholds) (row : RunRow) :
  thr_map !! "global" = Some g →
  row ∈ wide →
  row !! "run" = None →
  diagnose_tables wide cluster_map thr_map = Raise (KeyError "run").
Proof. intros Hg Hin Hrun. by apply (foldM_diagnose_run_step_no_run _ _ g _ _ row). Qed.

Lemma diagnose_tables_missing_run_witness :
  diagnose_tables [run_row_7; run_row_AB] cluster_map_CD thr_map_global
  = Raise (KeyError "run").
Proof.
  apply (diagnose_tables_missing_run _ _ _ thr_123 run_row_AB);
    [reflexivity| |reflexivity].
  right. by left.
Defined.

(* --------------------------------------------------------------------- *)
(* The check_outputs.py scripts                                          *)
(* --------------------------------------------------------------------- *)

Lemma filter_absent_nil (columns l : list string) :
  filter (fun c => c ∉ columns) l = [] ↔ ∀ c, c ∈ l → c ∈ columns.
Proof.
  induction l as [|c0 l IH].
  - split; [intros _ c Hin; by apply elem_of_nil in Hin|done].
  - rewrite filter_cons. destruct (decide (c0 ∉ columns)) as [Hout|Hin].
    + split; [done|]. intros Hall. destruct Hout. apply Hall. by left.
    + apply dec_stable in Hin. rewrite IH. split.
      * intros Hall c [->|Hc]%elem_of_cons; [done|by apply Hall].
      * intros Hall c Hc. apply Hall. by right.
Qed.

Lemma missing_cols_nil columns :
  missing_cols columns = [] ↔ ∀ c, c ∈ REQUIRED_COLS → c ∈ columns.
Proof. apply filter_absent_nil. Qed.

Lemma finish_code issues out :
  ((finish issues out).2 = 0 ↔ issues = O)
  ∧ ((finish issues out).2 = 1 ↔ issues ≠ O)
  ∧ (finish issues out).2 ≠ 2.
Proof. by destruct issues. Qed.

Lemma check_step_clean st file :
  (check_step st file).1 = O ↔ st.1 = O ∧ has_required_cols file.
Proof.
  unfold check_step, has_required_cols. destruct file as [p [|columns nrows]]; simpl.
  { split; [done|]. by intros [_ (? & ? & ? & _)]. }
  destruct (missing_cols columns) as [|c cs] eqn:Hmiss.
  - pose proof (proj1 (missing_cols_nil _) Hmiss) as Hcols.
    assert ((if frame_empty columns nrows
             then (st.1, st.2 ++ [WarnEmpty p]) else st).1 = st.1) as ->
      by (by destruct (frame_empty columns nrows)).
    split; [|by intros [? _]]. intros Hst. split; [done|]. by exists columns, nrows.
  - simpl. split; [done|]. intros [_ (columns' & nrows' & [= <- <-] & Hall)].
    pose proof (proj2 (missing_cols_nil _) Hall) as Hnil. by rewrite Hnil in Hmiss.
Qed.

Lemma check_loop_clean files st :
  (foldl check_step st files).1 = O ↔ st.1 = O ∧ Forall has_required_cols files.
Proof.
  revert st. induction files as [|file files IH]; intros st; simpl.
  { split; [by intros ?; split; [|constructor]|by intros [? _]]. }
  rewrite IH, check_step_clean, Forall_cons. tauto.
Qed.

Lemma check_loop_clean_start files :
  (foldl check_step (O, []) files).1 = O ↔ Forall has_required_cols files.
Proof. rewrite check_loop_clean. simpl. tauto. Qed.

(** X21: 20250928/scripts/check_outputs.py exits with 2 exactly when no
    CSV was found, and with 0 exactly when some were found and each of the
    first twelve reads and has the six required columns; an empty CSV is
    only warned about, and the files past the twelfth are never looked
    at. *)
Theorem check_outputs_exit_code (csvs : list (string * csv_read)) :
  ((check_outputs csvs).2 = 2 ↔ csvs = [])
  ∧ ((check_outputs csvs).2 = 0
     ↔ csvs ≠ [] ∧ Forall has_required_cols (take 12 csvs))
  ∧ ((check_outputs csvs).2 = 1
     ↔ csvs ≠ [] ∧ ¬ Forall has_required_cols (take 12 csvs)).
Proof.
  unfold check_outputs. destruct csvs as [|file csvs].
  { by repeat split; try done; intros [? _]. }
  set (files := take 12 (file :: csvs)).
  destruct (finish_code (foldl check_step (O, []) files).1
              (foldl check_step (O, []) files).2) as (H0 & H1 & H2).
  pose proof (check_loop_clean_start files) as Hclean.
  split; [by split|]. split.
  - rewrite H0, Hclean. split; [by intros ?|by intros [_ ?]].
  - rewrite H1, Hclean. split; [by intros ?|by intros [_ ?]].
Qed.

Lemma main_step_clean st file st' :
  main_step st file = Some st' →
  (st'.1 = O ↔ st.1 = O ∧ has_required_cols_and_rows file).
Proof.
  unfold main_step, has_required_cols_and_rows.
  destruct file as [p [|columns nrows]]; simpl; [done|].
  intros [= <-].
  destruct (missing_cols columns) as [|c cs] eqn:Hmiss.
  - pose proof (proj1 (missing_cols_nil _) Hmiss) as Hcols.
    destruct columns as [|c0 columns].
    { exfalso. apply (elem_of_nil "run"), Hcols. by left. }
    destruct nrows as [|nrows]; simpl.
    + split; [done|]. by intros [_ (? & ? & ? & _)].
    + split; [|by intros [? _]]. intros Hst. split; [done|]. by eexists _, _.
  - assert ((if frame_empty columns nrows
             then (S (S st.1),
                   (st.2 ++ [FailMissing p (c :: cs)]) ++ [FailEmpty p])
             else (S st.1, st.2 ++ [FailMissing p (c :: cs)])).1 ≠ O) as Hne
      by (by destruct (frame_empty columns nrows)).
    simpl. split; [done|]. intros [_ (columns' & nrows' & [= <- _] & Hall)].
    pose proof (proj2 (missing_cols_nil _) Hall) as Hnil. by rewrite Hnil in Hmiss.
Qed.

Lemma main_loop_clean files st st' :
  main_loop st files = Some st' →
  (st'.1 = O ↔ st.1 = O ∧ Forall has_required_cols_and_rows files).
Proof.
  revert st. induction files as [|file files IH]; intros st; simpl.
  { intros [= <-]. split; [by intros ?; split; [|constructor]|by intros [? _]]. }
  destruct (main_step st file) as [st1|] eqn:Hstep; [|done].
  intros Hloop. rewrite (IH _ Hloop), (main_step_clean _ _ _ Hstep), Forall_cons.
  tauto.
Qed.

Lemma main_loop_clean_start files st' :
  main_loop (O, []) files = Some st' →
  (st'.1 = O ↔ Forall has_required_cols_and_rows files).
Proof. intros Hloop. rewrite (main_loop_clean _ _ _ Hloop). simpl. tauto. Qed.

Lemma main_loop_None files st :
  main_loop st files = None ↔ ∃ file, file ∈ files ∧ file.2 = ReadError.
Proof.
  revert st. induction files as [|file files IH]; intros st; simpl.
  { split; [done|]. by intros (? & ?%elem_of_nil & _). }
  destruct (main_step st file) as [st1|] eqn:Hstep.
  - rewrite IH. split.
    + intros (f & Hin & Hf). exists f. split; [by right|done].
    + intros (f & [->|Hin]%elem_of_cons & Hf); [|by exists f].
      unfold main_step in Hstep. by rewrite Hf in Hstep.
  - split; [|done]. intros _. exists file. split; [by left|].
    unfold main_step in Hstep. by destruct file.2.
Qed.

(** X22: when scripts/check_outputs.py runs to its end, it exits with 2
    exactly when no CSV was found and with 0 exactly when some were found
    and each of the first eight has the six required columns and at least
    one row; an empty CSV is counted as an issue here. *)
Theorem main_exit_code (csvs : list (string * csv_read)) (out : list message)
    (code : Z) :
  main csvs = Some (out, code) →
  (code = 2 ↔ csvs = [])
  ∧ (code = 0 ↔ csvs ≠ [] ∧ Forall has_required_cols_and_rows (take 8 csvs))
  ∧ (code = 1 ↔ csvs ≠ [] ∧ ¬ Forall has_required_cols_and_rows (take 8 csvs)).
Proof.
  unfold main. destruct csvs as [|file csvs].
  { intros [= <- <-]. by repeat split; try done; intros [? _]. }
  set (files := take 8 (file :: csvs)).
  destruct (main_loop (O, []) files) as [st|] eqn:Hloop; [|done].
  pose proof (main_loop_clean_start _ _ Hloop) as Hclean.
  destruct (finish_code st.1 st.2) as (H0 & H1 & H2).
  intros [= Hfin]. rewrite Hfin in H0, H1, H2. simpl in H0, H1, H2.
  split; [by split|]. split.
  - rewrite H0, Hclean. split; [by intros ?|by intros [_ ?]].
  - rewrite H1, Hclean. split; [by intros ?|by intros [_ ?]].
Qed.

Lemma main_exit_code_witness :
  (1 = 2 ↔ [("out/metrics_a.csv", Frame REQUIRED_COLS 0)] = [])
  ∧ (1 = 0 ↔ [("out/metrics_a.csv", Frame REQUIRED_COLS 0)] ≠ []
             ∧ Forall has_required_cols_and_rows
                 (take 8 [("out/metrics_a.csv", Frame REQUIRED_COLS 0)]))
  ∧ (1 = 1 ↔ [("out/metrics_a.csv", Frame REQUIRED_COLS 0)] ≠ []
             ∧ ¬ Forall has_required_cols_and_rows
                   (take 8 [("out/metrics_a.csv", Frame REQUIRED_COLS 0)])).
Proof.
  apply (main_exit_code [("out/metrics_a.csv", Frame REQUIRED_COLS 0)]
           [FailEmpty "out/metrics_a.csv"; FailedWith 1] 1).
  reflexivity.
Defined.

(** X23: scripts/check_outputs.py ends on an uncaught exception exactly
    when one of the first eight CSVs cannot be read; nothing after that
    file is checked and no summary line is printed. *)
Theorem main_uncaught_read_error (csvs : list (string * csv_read)) :
  main csvs = None ↔ ∃ file, file ∈ take 8 csvs ∧ file.2 = ReadError.
Proof.
  unfold main. destruct csvs as [|file csvs].
  { split; [done|]. by intros (? & ?%elem_of_nil & _). }
  rewrite <- (main_loop_None _ (O, [])).
  by destruct (main_loop (O, []) (take 8 (file :: csvs))).
Qed.

(* --------------------------------------------------------------------- *)
(* cluster_scores: the scores against the records                        *)
(* --------------------------------------------------------------------- *)

Lemma weight_of_severity_str (sev : Severity) :
  weight_of_str (severity_str sev) = WEIGHT sev.
Proof. by destruct sev. Qed.

Lemma record_weight_symptom_record k key z sev cname :
  record_weight k (symptom_record key z sev cname)
  = if decide (cname = k) then WEIGHT sev else 0.
Proof.
  unfold record_weight. simpl. by rewrite weight_of_severity_str.
Qed.

Lemma record_weights_cluster run_row thr_map g k entry :
  Zsum (record_weight k <$> cluster_records run_row thr_map g entry)
  = if decide (entry.1 = k) then cluster_total run_row thr_map g entry.2 else 0.
Proof.
  unfold cluster_records, cluster_total.
  induction (resolved_values run_row entry.2) as [|kz kzs IH].
  { by destruct (decide (entry.1 = k)). }
  rewrite !fmap_cons. unfold Zsum in *. simpl foldr.
  rewrite IH, record_weight_symptom_record.
  destruct (decide (entry.1 = k)); [done|lia].
Qed.

Lemma record_weights_clusters run_row thr_map g k cs :
  Zsum (record_weight k <$> concat (cluster_records run_row thr_map g <$> cs))
  = Zsum (named_totals run_row thr_map g k cs).
Proof.
  induction cs as [|e cs IH]; [done|].
  rewrite fmap_cons, concat_cons, fmap_app, Zsum_app, IH, named_totals_cons.
  by rewrite record_weights_cluster.
Qed.

(** X24: the scores can be recomputed from the records: in every returned
    result the score of a cluster is the sum, over the records that carry
    its name, of the weight of the record's severity. *)
Theorem score_is_sum_over_records (run_row : RunRow) (cluster_map : ClusterMap)
    (thr_map : gmap string Thresholds) scores labels records (cname : string) :
  cluster_scores run_row cluster_map thr_map = Ok (scores, labels, records) →
  cname ∈ (clusters cluster_map).*1 →
  scores !! cname = Some (Zsum (record_weight cname <$> records)).
Proof.
  intros Hrun Hin.
  destruct (cluster_scores_Ok_inv _ _ _ _ _ _ Hrun) as (g & _ & -> & Hsc & _).
  by rewrite Hsc, decide_True, record_weights_clusters.
Qed.

Lemma score_is_sum_over_records_witness :
  ({["C" := 5]} : gmap string Z) !! "C"
  = Some (Zsum (record_weight "C"
                  <$> [symptom_record "A" 2.5 moderate "C";
                       symptom_record "B" 3.5 severe "C"])).
Proof.
  apply (score_is_sum_over_records run_row_AB cluster_map_C thr_map_global
           {["C" := 5]} {["C" := label_moderate]}).
  - vm_compute. reflexivity.
  - by left.
Defined.

(** An empty CSV with the required columns passes the first script and
    fails the second. *)
Example empty_csv_warned_here_failed_there :
  check_outputs [("out/metrics_a.csv", Frame REQUIRED_COLS 0)]
  = ([WarnEmpty "out/metrics_a.csv"; Done], 0)
  ∧ main [("out/metrics_a.csv", Frame REQUIRED_COLS 0)]
    = Some ([FailEmpty "out/metrics_a.csv"; FailedWith 1], 1).
Proof. by vm_compute. Qed.
